(** * cnfatal/proxy: a transparent TCP proxy with Clash-style rules

    A shallow embedding of the Go sources
      - [config/config.go]      (the [Policy] tokens),
      - [rules/parser.go]       ([Rule], [ParseRule], [ParseRules]),
      - package [rules], the matcher ([Matcher.Match], [Matcher.matchRule]),
      - [iptables/iptables.go]  ([NewManager], [Setup], [addOutputRule]),
      - package [proxy], the upstream connector ([Connect], [connectHTTP],
        [bufferedConn.Read], [DirectConnect]),
      - [proxy/transparent.go]  ([handleConnection], [getOriginalDst]),
    followed by the properties of these functions.

    Conventions.  Go strings are byte strings and are modelled by [string];
    the functions of Go's [strings] package are given on the ASCII range
    (Go applies Unicode case mapping and Unicode white space to bytes above
    0x7f, which the model leaves unchanged).  Fixed-width integers are [Z]
    with the truncation of every conversion written out.  Calls into the
    operating system or into another library take their outcome from an
    explicit environment record, and the calls a function makes are recorded
    in a trace of events. *)

From Stdlib Require Import ZArith List Bool Ascii String Lia DecimalString.
Import ListNotations.

Local Open Scope string_scope.
Local Open Scope list_scope.

(* ================================================================== *)
(** * Go's [strings] package (ASCII range)                             *)
(* ================================================================== *)

Module strings.

(** [utf8.RuneSelf]: the bytes below it are the one-byte runes.  Go's
    [strings.ToUpper], [strings.ToLower], [strings.EqualFold] and
    [strings.TrimSpace] have a separate path for strings made of such
    bytes only; the definitions of this module are these paths.  On a
    string with a byte from [RuneSelf] on, Go decodes UTF-8 and applies
    Unicode case mapping and [unicode.IsSpace], which this module does
    not describe: a property of a function that reads arbitrary text
    through them is stated for [is_ascii] input. *)
Definition RuneSelf : N := 128.

Definition is_ascii (s : string) : bool :=
  forallb (fun c => N.ltb (N_of_ascii c) RuneSelf) (list_ascii_of_string s).

Definition is_upper (c : ascii) : bool :=
  let n := N_of_ascii c in (N.leb 65 n && N.leb n 90)%bool.

Definition is_lower (c : ascii) : bool :=
  let n := N_of_ascii c in (N.leb 97 n && N.leb n 122)%bool.

Definition lower_char (c : ascii) : ascii :=
  if is_upper c then ascii_of_N (N_of_ascii c + 32) else c.

Definition upper_char (c : ascii) : ascii :=
  if is_lower c then ascii_of_N (N_of_ascii c - 32) else c.

Fixpoint map_string (f : ascii -> ascii) (s : string) : string :=
  match s with
  | EmptyString => EmptyString
  | String c s' => String (f c) (map_string f s')
  end.

(** [strings.ToLower], [strings.ToUpper] on [is_ascii] strings: the
    letters [a]-[z] and [A]-[Z] are mapped, every other byte is kept. *)
Definition ToLower : string -> string := map_string lower_char.
Definition ToUpper : string -> string := map_string upper_char.

(** [strings.EqualFold]: equality under simple case folding. *)
Definition EqualFold (s t : string) : bool :=
  String.eqb (ToLower s) (ToLower t).

(** [strings.HasSuffix]:
    [len(s) >= len(suffix) && s[len(s)-len(suffix):] == suffix] *)
Definition HasSuffix (s suffix : string) : bool :=
  (Nat.leb (String.length suffix) (String.length s) &&
   String.eqb
     (substring (String.length s - String.length suffix)
                (String.length suffix) s)
     suffix)%bool.

(** [strings.Contains]: [substr] occurs at some position of [s]. *)
Fixpoint Contains (s substr : string) : bool :=
  (String.prefix substr s ||
   match s with
   | EmptyString => false
   | String _ s' => Contains s' substr
   end)%bool.

(** White space as [strings.TrimSpace] sees it on ASCII:
    ['\t'], ['\n'], ['\v'], ['\f'], ['\r'], [' ']. *)
Definition is_space (c : ascii) : bool :=
  let n := N_of_ascii c in
  ((N.leb 9 n && N.leb n 13) || N.eqb n 32)%bool.

Fixpoint TrimLeftSpace (s : string) : string :=
  match s with
  | EmptyString => EmptyString
  | String c s' => if is_space c then TrimLeftSpace s' else s
  end.

Fixpoint TrimRightSpace (s : string) : string :=
  match s with
  | EmptyString => EmptyString
  | String c s' =>
      match TrimRightSpace s' with
      | EmptyString => if is_space c then EmptyString else String c EmptyString
      | t => String c t
      end
  end.

(** [strings.TrimSpace] on [is_ascii] strings: the leading and the
    trailing bytes of [asciiSpace] are cut. *)
Definition TrimSpace (s : string) : string :=
  TrimRightSpace (TrimLeftSpace s).

(** [strings.Split(s, sep)] for a one-byte separator: the fields between
    the occurrences of [sep]; always at least one field. *)
Fixpoint Split (s : string) (sep : ascii) : list string :=
  match s with
  | EmptyString => [EmptyString]
  | String c s' =>
      if Ascii.eqb c sep then EmptyString :: Split s' sep
      else match Split s' sep with
           | [] => [String c EmptyString]
           | f :: fs => String c f :: fs
           end
  end.

End strings.

(* ================================================================== *)
(** * Go's [net] package: addresses and networks                       *)
(* ================================================================== *)

Module net.

(** [net.IP] and [net.IPMask] are byte slices.  A byte is a [Z] in
    [0, 256).  Only the length of a [nil] slice is ever observed by the
    functions below, so [nil] and the empty slice are both [[]]; where
    the caller tests [ip == nil] the address is an [option]. *)
Definition IP := list Z.
Definition IPMask := list Z.

Record IPNet := { IP_ : IP; Mask : IPMask }.

Definition IPv4len : nat := 4.
Definition IPv6len : nat := 16.

(** [net.IPv4(a, b, c, d)]: the 16-byte form of an IPv4 address. *)
Definition IPv4 (a b c d : Z) : IP :=
  [0; 0; 0; 0; 0; 0; 0; 0; 0; 0; 255; 255; a; b; c; d]%Z.

Definition isZeros (p : list Z) : bool := forallb (Z.eqb 0) p.

(** [IP.To4]: the 4-byte form of an IPv4 address, [nil] otherwise. *)
Definition To4 (ip : IP) : option IP :=
  if Nat.eqb (List.length ip) IPv4len then Some ip
  else if (Nat.eqb (List.length ip) IPv6len
           && isZeros (firstn 10 ip)
           && Z.eqb (nth 10 ip 0%Z) 255
           && Z.eqb (nth 11 ip 0%Z) 255)%bool
       then Some (firstn 4 (skipn 12 ip))
       else None.

(** [networkNumberAndMask] *)
Definition networkNumberAndMask (n : IPNet) : option (IP * IPMask) :=
  let ip := match To4 (IP_ n) with
            | Some x => Some x
            | None => if Nat.eqb (List.length (IP_ n)) IPv6len
                      then Some (IP_ n) else None
            end in
  match ip with
  | None => None
  | Some ip =>
      let m := Mask n in
      if Nat.eqb (List.length m) IPv4len then
        if Nat.eqb (List.length ip) IPv4len then Some (ip, m) else None
      else if Nat.eqb (List.length m) IPv6len then
        if Nat.eqb (List.length ip) IPv4len then Some (ip, skipn 12 m)
        else Some (ip, m)
      else None
  end.

Fixpoint masked_eq (nn m ip : list Z) : bool :=
  match nn, m, ip with
  | a :: nn', k :: m', b :: ip' =>
      (Z.eqb (Z.land a k) (Z.land b k) && masked_eq nn' m' ip')%bool
  | _, _, _ => true
  end.

(** [IPNet.Contains] *)
Definition Contains (n : IPNet) (ip : IP) : bool :=
  let (nn, m) := match networkNumberAndMask n with
                 | Some p => p
                 | None => ([], [])
                 end in
  let ip := match To4 ip with Some x => x | None => ip end in
  if Nat.eqb (List.length ip) (List.length nn)
  then masked_eq nn m ip
  else false.

End net.

(* ================================================================== *)
(** * config/config.go                                                 *)
(* ================================================================== *)

Module config.

(** [type Policy string] *)
Definition Policy := string.

Definition PolicyProxy : Policy := "PROXY".
Definition PolicyDirect : Policy := "DIRECT".
Definition PolicyReject : Policy := "REJECT".

End config.

(* ================================================================== *)
(** * Results of fallible functions                                    *)
(* ================================================================== *)

(** A Go function returning [(T, error)] returns either a value with a
    [nil] error or no value with an error; the error carries its text. *)
Inductive result (A : Type) : Type :=
| Ok (a : A)
| Err (msg : string).
Arguments Ok {A} a.
Arguments Err {A} msg.

Definition is_ok {A} (r : result A) : bool :=
  match r with Ok _ => true | Err _ => false end.

(* ================================================================== *)
(** * Package [rules]: the parser and the matcher                       *)
(* ================================================================== *)

Module rules.

Import strings.

(** [type RuleType string] *)
Definition RuleType := string.

Definition RuleTypeDomain : RuleType := "DOMAIN".
Definition RuleTypeDomainSuffix : RuleType := "DOMAIN-SUFFIX".
Definition RuleTypeDomainKeyword : RuleType := "DOMAIN-KEYWORD".
Definition RuleTypeIPCIDR : RuleType := "IP-CIDR".
Definition RuleTypeIPCIDR6 : RuleType := "IP-CIDR6".
Definition RuleTypeMatch : RuleType := "MATCH".

(** [type Rule struct]; [Network] is a pointer, [nil] is [None]. *)
Record Rule := {
  Type_ : RuleType;
  Value : string;
  Policy : config.Policy;
  Network : option net.IPNet
}.

(** [parts[i]] of a slice of strings. *)
Definition part (parts : list string) (i : nat) : string :=
  nth i parts EmptyString.

Section Parser.

(** [net.ParseCIDR] belongs to Go's standard library: the parser takes
    it as a parameter returning the network, or [None] on an error. *)
Variable ParseCIDR : string -> option net.IPNet.

(** [func ParseRule(ruleStr string) (rule *Rule, err error)] *)
Definition ParseRule (ruleStr : string) : result Rule :=
  let ruleStr := TrimSpace ruleStr in
  let parts := Split ruleStr "," in
  if Nat.ltb (List.length parts) 2 then
    Err ("invalid rule format: " ++ ruleStr)
  else
    let ruleType : RuleType := ToUpper (TrimSpace (part parts 0)) in
    let fields : result (string * string) :=
      if String.eqb ruleType RuleTypeMatch then
        Ok (EmptyString, TrimSpace (part parts 1))
      else if Nat.ltb (List.length parts) 3 then
        Err ("invalid rule format, expected TYPE,VALUE,POLICY: " ++ ruleStr)
      else Ok (TrimSpace (part parts 1), TrimSpace (part parts 2)) in
    match fields with
    | Err e => Err e
    | Ok (value, policyStr) =>
        let policy : config.Policy := ToUpper policyStr in
        if (negb (String.eqb policy config.PolicyProxy) &&
            negb (String.eqb policy config.PolicyDirect) &&
            negb (String.eqb policy config.PolicyReject))%bool then
          Err ("invalid policy: " ++ policyStr ++
               " (must be PROXY, DIRECT, or REJECT)")
        else
          let rule := {| Type_ := ruleType; Value := value;
                         Policy := policy; Network := None |} in
          if (String.eqb ruleType RuleTypeIPCIDR ||
              String.eqb ruleType RuleTypeIPCIDR6)%bool then
            match ParseCIDR value with
            | None => Err ("invalid CIDR: " ++ value)
            | Some network =>
                Ok {| Type_ := ruleType; Value := value;
                      Policy := policy; Network := Some network |}
            end
          else if (String.eqb ruleType RuleTypeDomain ||
                   String.eqb ruleType RuleTypeDomainSuffix ||
                   String.eqb ruleType RuleTypeDomainKeyword ||
                   String.eqb ruleType RuleTypeMatch)%bool then
            Ok rule
          else Err ("unsupported rule type: " ++ ruleType)
    end.

(** The loop of [ParseRules]; [i] is the index of the head of
    [ruleStrings] and [acc] the rules appended so far. *)
Fixpoint ParseRules_loop (i : nat) (ruleStrings : list string)
         (acc : list Rule) : result (list Rule) :=
  match ruleStrings with
  | [] => Ok acc
  | ruleStr :: rest =>
      match ParseRule ruleStr with
      | Err e =>
          Err ("rule " ++
               NilEmpty.string_of_uint (Nat.to_uint (i + 1)) ++ ": " ++ e)
      | Ok rule => ParseRules_loop (i + 1) rest (acc ++ [rule])
      end
  end.

(** [func ParseRules(ruleStrings []string) (rules []*Rule, err error)] *)
Definition ParseRules (ruleStrings : list string) : result (list Rule) :=
  ParseRules_loop 0 ruleStrings [].

End Parser.

(** [type MatchResult struct]; a [nil] rule is [None]. *)
Record MatchResult := {
  MPolicy : config.Policy;
  MRule : option Rule
}.

(** [func (m *Matcher) matchRule(rule *Rule, domain string, ip net.IP) bool] *)
Definition matchRule (rule : Rule) (domain : string)
           (ip : option net.IP) : bool :=
  if String.eqb (Type_ rule) RuleTypeDomain then
    EqualFold domain (Value rule)
  else if String.eqb (Type_ rule) RuleTypeDomainSuffix then
    let suffix := ToLower (Value rule) in
    if String.eqb domain suffix then true
    else HasSuffix domain ("." ++ suffix)
  else if String.eqb (Type_ rule) RuleTypeDomainKeyword then
    Contains domain (ToLower (Value rule))
  else if (String.eqb (Type_ rule) RuleTypeIPCIDR ||
           String.eqb (Type_ rule) RuleTypeIPCIDR6)%bool then
    match ip, Network rule with
    | Some ip, Some network => net.Contains network ip
    | _, _ => false
    end
  else if String.eqb (Type_ rule) RuleTypeMatch then true
  else false.

(** The [for _, rule := range m.rules] loop of [Match], over the
    lower-cased domain. *)
Fixpoint Match_loop (rules : list Rule) (domain : string)
         (ip : option net.IP) : MatchResult :=
  match rules with
  | [] => {| MPolicy := config.PolicyDirect; MRule := None |}
  | rule :: rest =>
      if matchRule rule domain ip
      then {| MPolicy := Policy rule; MRule := Some rule |}
      else Match_loop rest domain ip
  end.

(** [func (m *Matcher) Match(domain string, ip net.IP) MatchResult];
    the matcher [m] is its rule list. *)
Definition Match (m : list Rule) (domain : string)
           (ip : option net.IP) : MatchResult :=
  let domain := ToLower domain in
  Match_loop m domain ip.

End rules.

(* ================================================================== *)
(** * Fixed-width integers                                             *)
(* ================================================================== *)

(** Go's conversions [byte(x)], [uint16(x)] and [uint32(x)] keep the low
    bits of [x]. *)
Definition byte_of (x : Z) : Z := (x mod 256)%Z.
Definition uint16 (x : Z) : Z := (x mod 65536)%Z.
Definition uint32 (x : Z) : Z := (x mod 4294967296)%Z.

(* ================================================================== *)
(** * iptables/iptables.go                                             *)
(* ================================================================== *)

Module iptables.

Local Open Scope Z_scope.

Definition tableName : string := "transparent_proxy".
Definition outputChainName : string := "output".
Definition fwMark : Z := 1.
Definition routingTable : Z := 100.

(** ** The part of [github.com/google/nftables] the manager builds *)

Inductive TableFamily := TableFamilyIPv4 | TableFamilyIPv6 | TableFamilyINet.
Inductive ChainType := ChainTypeFilter | ChainTypeRoute | ChainTypeNAT.
Inductive ChainHook :=
  ChainHookPrerouting | ChainHookInput | ChainHookForward
| ChainHookOutput | ChainHookPostrouting.

(** [nftables.ChainPriorityNATDest] *)
Definition ChainPriorityNATDest : Z := -100.

Record Table := { TFamily : TableFamily; TName : string }.

Record Chain := {
  CName : string;
  CTable : option Table;
  CType : ChainType;
  CHooknum : ChainHook;
  CPriority : Z
}.

Inductive MetaKey := MetaKeyL4PROTO | MetaKeySKUID | MetaKeyMARK.
Inductive CmpOp := CmpOpEq | CmpOpNeq.
Inductive PayloadBase :=
  PayloadBaseLLHeader | PayloadBaseNetworkHeader | PayloadBaseTransportHeader.

(** The expressions of package [expr] that [addOutputRule] uses, each
    with the fields it sets (the others keep their zero value). *)
Inductive Any :=
| Meta (Key : MetaKey) (SourceRegister : bool) (Register : Z)
| Cmp (Op : CmpOp) (Register : Z) (Data : list Z)
| Payload (DestRegister : Z) (Base : PayloadBase) (Offset Len : Z)
| Immediate (Register : Z) (Data : list Z)
| Redir (RegisterProtoMin RegisterProtoMax : Z).

Record Rule := {
  RTable : option Table;
  RChain : Chain;
  Exprs : list Any
}.

(** A message queued on the netlink connection by [AddTable], [DelTable],
    [AddChain] and [AddRule]; [Flush] sends the queue as one batch. *)
Inductive Msg :=
| MsgAddTable (t : Table)
| MsgDelTable (t : Table)
| MsgAddChain (c : Chain)
| MsgAddRule (r : Rule).

(** ** The part of [github.com/vishvananda/netlink] the manager calls *)

Record NlRule := { Mark : Z; NTable : Z; Priority : Z }.

Record NlRoute := {
  LinkIndex : Z;
  Gw : option net.IP;
  RtTable : Z;
  ScopeHost : bool;
  TypeLocal : bool
}.

Inductive RtCall :=
| RuleAdd (r : NlRule)
| RuleDel (r : NlRule)
| RouteAdd (r : NlRoute)
| RouteDel (r : NlRoute).

(** ** The kernel as the manager sees it

    The outcome of every call that leaves the process.  [Getuid] and
    [Geteuid] are the real and the effective user id of the process
    (getuid(2), geteuid(2)); an error is [Some] of its text. *)
Record Env := {
  Getuid : Z;
  Geteuid : Z;
  nftables_New : option string;
  ListTables : result (list Table);
  netlink_RuleAdd : option string;
  netlink_LinkByName_lo : result Z;
  netlink_RouteAdd : option string;
  Flush_err : option string
}.

(** What the manager has done to the kernel: the messages queued on the
    current connection, the batches flushed so far (oldest first) and
    the routing calls made (oldest first). *)
Record Kernel := {
  queue : list Msg;
  batches : list (list Msg);
  rtcalls : list RtCall
}.

Definition enqueue (k : Kernel) (m : Msg) : Kernel :=
  {| queue := queue k ++ [m]; batches := batches k; rtcalls := rtcalls k |}.

Definition rtcall (k : Kernel) (c : RtCall) : Kernel :=
  {| queue := queue k; batches := batches k; rtcalls := rtcalls k ++ [c] |}.

(** [nftables.New()] gives a connection with an empty queue. *)
Definition fresh_conn (k : Kernel) : Kernel :=
  {| queue := []; batches := batches k; rtcalls := rtcalls k |}.

(** [conn.Flush()]: the queue is sent as one batch, which the kernel
    applies as a whole or not at all; the queue is empty afterwards. *)
Definition Flush (env : Env) (k : Kernel) : option string * Kernel :=
  match Flush_err env with
  | None => (None, {| queue := []; batches := batches k ++ [queue k];
                      rtcalls := rtcalls k |})
  | Some e => (Some e, {| queue := []; batches := batches k;
                          rtcalls := rtcalls k |})
  end.

(** ** The manager *)

Record Manager := {
  listenPort : Z;
  listenIP : net.IP;
  ports : list Z;
  proxyUID : Z;
  conn : bool;            (* [m.conn != nil] *)
  table : option Table
}.

(** [func NewManager(listenPort int, targetPorts []int) *Manager] *)
Definition NewManager (env : Env) (listenPort : Z) (targetPorts : list Z)
  : Manager :=
  {| listenPort := uint16 listenPort;
     listenIP := net.IPv4 127 0 0 1;
     ports := map uint16 targetPorts;
     proxyUID := uint32 (Getuid env);
     conn := false;
     table := None |}.

(** [func DefaultPorts() []int] *)
Definition DefaultPorts : list Z := [80; 443].

(** [func binaryPort(port uint16) []byte] *)
Definition binaryPort (port : Z) : list Z :=
  [byte_of (Z.shiftr port 8); byte_of (Z.land port 255)].

(** [func binaryUint32(v uint32) []byte] *)
Definition binaryUint32 (v : Z) : list Z :=
  [byte_of v; byte_of (Z.shiftr v 8);
   byte_of (Z.shiftr v 16); byte_of (Z.shiftr v 24)].

Definition set_conn (m : Manager) : Manager :=
  {| listenPort := listenPort m; listenIP := listenIP m; ports := ports m;
     proxyUID := proxyUID m; conn := true; table := table m |}.

Definition set_table (m : Manager) (t : Table) : Manager :=
  {| listenPort := listenPort m; listenIP := listenIP m; ports := ports m;
     proxyUID := proxyUID m; conn := conn m; table := Some t |}.

(** [func (m *Manager) addOutputRule(chain *nftables.Chain, dstPort uint16) error] *)
Definition addOutputRule (m : Manager) (chain : Chain) (dstPort : Z)
           (k : Kernel) : option string * Kernel :=
  let rule :=
    {| RTable := table m;
       RChain := chain;
       Exprs :=
         [ Meta MetaKeyL4PROTO false 1;
           Cmp CmpOpEq 1 [6];
           Meta MetaKeySKUID false 1;
           Cmp CmpOpNeq 1 (binaryUint32 (proxyUID m));
           Payload 1 PayloadBaseTransportHeader 2 2;
           Cmp CmpOpEq 1 (binaryPort dstPort);
           Immediate 1 (binaryUint32 fwMark);
           Meta MetaKeyMARK true 1;
           Immediate 1 (binaryPort (listenPort m));
           Redir 1 1 ] |} in
  (None, enqueue k (MsgAddRule rule)).

(** The loop of [cleanupExisting]: delete the first table with our name
    and family, then [break]. *)
Fixpoint cleanupExisting_loop (tables : list Table) (k : Kernel) : Kernel :=
  match tables with
  | [] => k
  | t :: rest =>
      if (String.eqb (TName t) tableName &&
          match TFamily t with TableFamilyIPv4 => true | _ => false end)%bool
      then enqueue k (MsgDelTable t)
      else cleanupExisting_loop rest k
  end.

(** [func (m *Manager) cleanupExisting()] *)
Definition cleanupExisting (env : Env) (m : Manager) (k : Kernel) : Kernel :=
  if negb (conn m) then k
  else match ListTables env with
       | Err _ => k
       | Ok tables => cleanupExisting_loop tables k
       end.

Definition policyRule : NlRule :=
  {| Mark := fwMark; NTable := routingTable; Priority := 100 |}.

(** [func (m *Manager) setupPolicyRouting() error] *)
Definition setupPolicyRouting (env : Env) (k : Kernel)
  : option string * Kernel :=
  let k := rtcall k (RuleAdd policyRule) in
  match (match netlink_RuleAdd env with
         | Some e => if negb (String.eqb e "file exists")
                     then Some ("failed to add ip rule: " ++ e)%string
                     else None
         | None => None
         end) with
  | Some e => (Some e, k)
  | None =>
      match netlink_LinkByName_lo env with
      | Err e => (Some ("failed to get loopback interface: " ++ e)%string, k)
      | Ok lo =>
          let route := {| LinkIndex := lo;
                          Gw := Some (net.IPv4 127 0 0 1);
                          RtTable := routingTable;
                          ScopeHost := false; TypeLocal := false |} in
          let k := rtcall k (RouteAdd route) in
          match netlink_RouteAdd env with
          | Some e => if negb (String.eqb e "file exists")
                      then (Some ("failed to add route: " ++ e)%string, k)
                      else (None, k)
          | None => (None, k)
          end
      end
  end.

(** [func (m *Manager) cleanupPolicyRouting()] *)
Definition cleanupPolicyRouting (env : Env) (k : Kernel) : Kernel :=
  let k := rtcall k (RuleDel policyRule) in
  match netlink_LinkByName_lo env with
  | Err _ => k
  | Ok lo =>
      rtcall k (RouteDel {| LinkIndex := lo; Gw := None;
                            RtTable := routingTable;
                            ScopeHost := true; TypeLocal := true |})
  end.

(** [func (m *Manager) Cleanup() error] *)
Definition Cleanup (env : Env) (m : Manager) (k : Kernel)
  : option string * Manager * Kernel :=
  let opened :=
    if conn m then Ok (m, k)
    else match nftables_New env with
         | Some e => Err ("failed to create nftables connection: " ++ e)%string
         | None => Ok (set_conn m, fresh_conn k)
         end in
  match opened with
  | Err e => (Some e, m, k)
  | Ok (m, k) =>
      let k := cleanupExisting env m k in
      let k := cleanupPolicyRouting env k in
      match Flush env k with
      | (Some e, k) =>
          (Some ("failed to cleanup nftables rules: " ++ e)%string, m, k)
      | (None, k) => (None, m, k)
      end
  end.

(** The loop [for _, port := range m.ports] of [Setup]: [inl] when a rule
    could not be added (after [m.Cleanup()]), [inr] otherwise. *)
Fixpoint Setup_loop (env : Env) (m : Manager) (chain : Chain)
         (ps : list Z) (k : Kernel)
  : (string * Manager * Kernel) + Kernel :=
  match ps with
  | [] => inr k
  | port :: rest =>
      match addOutputRule m chain port k with
      | (Some e, k) =>
          let '(_, m, k) := Cleanup env m k in inl (e, m, k)
      | (None, k) => Setup_loop env m chain rest k
      end
  end.

(** [func (m *Manager) Setup() error] *)
Definition Setup (env : Env) (m : Manager) (k : Kernel)
  : option string * Manager * Kernel :=
  match nftables_New env with
  | Some e =>
      (Some ("failed to create nftables connection: " ++ e)%string, m, k)
  | None =>
      let m := set_conn m in
      let k := fresh_conn k in
      let k := cleanupExisting env m k in
      match setupPolicyRouting env k with
      | (Some e, k) =>
          (Some ("failed to setup policy routing: " ++ e)%string, m, k)
      | (None, k) =>
          let tbl := {| TFamily := TableFamilyIPv4; TName := tableName |} in
          let k := enqueue k (MsgAddTable tbl) in
          let m := set_table m tbl in
          let outputChain :=
            {| CName := outputChainName;
               CTable := table m;
               CType := ChainTypeNAT;
               CHooknum := ChainHookOutput;
               CPriority := ChainPriorityNATDest |} in
          let k := enqueue k (MsgAddChain outputChain) in
          match Setup_loop env m outputChain (ports m) k with
          | inl (e, m, k) => (Some e, m, k)
          | inr k =>
              match Flush env k with
              | (Some e, k) =>
                  let k := cleanupPolicyRouting env k in
                  (Some ("failed to apply nftables rules: " ++ e)%string, m, k)
              | (None, k) => (None, m, k)
              end
          end
      end
  end.

(** [func CheckRoot() error] *)
Definition CheckRoot (env : Env) : option string :=
  match nftables_New env with
  | Some e => Some ("nftables requires root privileges: " ++ e)%string
  | None =>
      match ListTables env with
      | Err e => Some ("nftables requires root privileges: " ++ e)%string
      | Ok _ => None
      end
  end.

(** [func CheckAvailable() error] *)
Definition CheckAvailable (env : Env) : option string :=
  match nftables_New env with
  | Some e => Some ("nftables not available: " ++ e)%string
  | None =>
      match ListTables env with
      | Err e => Some ("nftables not functional: " ++ e)%string
      | Ok _ => None
      end
  end.

End iptables.

(* ================================================================== *)
(** * Byte streams: [net.Conn], [bufio.Reader], [http.ReadResponse]    *)
(* ================================================================== *)

(** The errors of the reading layers.  [OutOfFuel] is not a Go error: it
    marks the bound of a loop of the model, and [ReadSlice_loop_spec],
    [readLineSlice_loop_spec] and [ReadResponse_fuel] below show that the
    bound is never reached. *)
Inductive ioerr :=
| EOF
| ErrClosed
| ErrBufferFull
| ErrMalformed
| OutOfFuel.

Definition ioerr_text (e : ioerr) : string :=
  match e with
  | EOF => "EOF"
  | ErrClosed => "use of closed network connection"
  | ErrBufferFull => "bufio: buffer full"
  | ErrMalformed => "malformed HTTP response"
  | OutOfFuel => "out of fuel"
  end.

Definition bytes := list ascii.

Definition LF : ascii := ascii_of_nat 10.
Definition CR : ascii := ascii_of_nat 13.
Definition SP : ascii := ascii_of_nat 32.

Module netconn.

(** The reading side of a TCP connection: the bytes the peer sends, in
    the pieces in which they arrive, and whether [Close] was called.  A
    [Read] never blocks in the model: once the pieces are used up the
    peer has closed and [Read] returns [EOF]. *)
Record Conn := {
  incoming : list bytes;
  closed : bool
}.

Fixpoint drop_empty (cs : list bytes) : list bytes :=
  match cs with
  | [] :: cs' => drop_empty cs'
  | _ => cs
  end.

(** [conn.Read(p)] with [len(p) = n]: at most [n] bytes of the piece at
    the head; never [(0, nil)] for [n > 0]. *)
Definition Read (c : Conn) (n : nat) : bytes * option ioerr * Conn :=
  if closed c then ([], Some ErrClosed, c)
  else if Nat.eqb n 0 then ([], None, c)
  else match drop_empty (incoming c) with
       | [] => ([], Some EOF, {| incoming := []; closed := false |})
       | piece :: rest =>
           (firstn n piece, None,
            {| incoming := skipn n piece :: rest; closed := false |})
       end.

(** [conn.Close()] *)
Definition Close (c : Conn) : Conn :=
  {| incoming := incoming c; closed := true |}.

(** The bytes not yet read. *)
Definition pending (c : Conn) : bytes := List.concat (incoming c).

End netconn.

Module bufio.

Import netconn.

Definition defaultBufSize : nat := 4096.

(** [bufio.Reader]: [buf] is the unread part [b.buf[b.r:b.w]] of the
    buffer, [size] is [len(b.buf)], [rd] the connection read from. *)
Record Reader := {
  buf : bytes;
  size : nat;
  err : option ioerr;
  rd : Conn
}.

(** [bufio.NewReader(conn)] *)
Definition NewReader (c : Conn) : Reader :=
  {| buf := []; size := defaultBufSize; err := None; rd := c |}.

Definition set_buf (b : Reader) (l : bytes) : Reader :=
  {| buf := l; size := size b; err := err b; rd := rd b |}.

Definition clear_err (b : Reader) : Reader :=
  {| buf := buf b; size := size b; err := None; rd := rd b |}.

(** [b.fill()]: one read of the connection into the free part of the
    buffer (the connection never returns [(0, nil)], so the loop of
    [fill] runs once). *)
Definition fill (b : Reader) : Reader :=
  let '(got, e, c) := Read (rd b) (size b - List.length (buf b)) in
  {| buf := buf b ++ got; size := size b; err := e; rd := c |}.

(** [b.Read(p)] with [len(p) = n] *)
Definition Read (b : Reader) (n : nat) : bytes * option ioerr * Reader :=
  if Nat.eqb n 0 then
    match buf b with
    | [] => ([], err b, clear_err b)
    | _ => ([], None, b)
    end
  else
    match buf b with
    | [] =>
        match err b with
        | Some e => ([], Some e, clear_err b)
        | None =>
            if Nat.leb (size b) n then
              let '(got, e, c) := netconn.Read (rd b) n in
              (got, e, {| buf := []; size := size b; err := None; rd := c |})
            else
              let '(got, e, c) := netconn.Read (rd b) (size b) in
              match got with
              | [] => ([], e, {| buf := []; size := size b;
                                err := None; rd := c |})
              | _ => (firstn n got, None,
                      {| buf := skipn n got; size := size b;
                         err := e; rd := c |})
              end
        end
    | _ => (firstn n (buf b), None, set_buf b (skipn n (buf b)))
    end.

Fixpoint IndexByte (l : bytes) (c : ascii) : option nat :=
  match l with
  | [] => None
  | x :: l' => if Ascii.eqb x c then Some 0
               else option_map S (IndexByte l' c)
  end.

(** The loop of [b.ReadSlice(delim)]; [fuel] bounds the calls of [fill]. *)
Fixpoint ReadSlice_loop (fuel : nat) (b : Reader) (delim : ascii)
  : bytes * option ioerr * Reader :=
  match IndexByte (buf b) delim with
  | Some i => (firstn (S i) (buf b), None, set_buf b (skipn (S i) (buf b)))
  | None =>
      match err b with
      | Some e => (buf b, Some e, clear_err (set_buf b []))
      | None =>
          if Nat.leb (size b) (List.length (buf b))
          then (buf b, Some ErrBufferFull, set_buf b [])
          else match fuel with
               | O => ([], Some OutOfFuel, b)
               | S fuel' => ReadSlice_loop fuel' (fill b) delim
               end
      end
  end.

(** [b.ReadSlice(delim)]: every [fill] adds a byte or sets [b.err], so
    [size b] calls are enough. *)
Definition ReadSlice (b : Reader) (delim : ascii)
  : bytes * option ioerr * Reader :=
  ReadSlice_loop (size b) b delim.

Definition ends_with (l : bytes) (c : ascii) : bool :=
  match rev l with
  | x :: _ => Ascii.eqb x c
  | [] => false
  end.

(** [b.ReadLine()]: [(line, isPrefix, err)] *)
Definition ReadLine (b : Reader) : bytes * bool * option ioerr * Reader :=
  let '(line, e, b) := ReadSlice b LF in
  match e with
  | Some ErrBufferFull =>
      if ends_with line CR
      then (removelast line, true, None, set_buf b [CR])
      else (line, true, None, b)
  | _ =>
      match line with
      | [] => ([], false, e, b)
      | _ =>
          if ends_with line LF then
            let line' := removelast line in
            if ends_with line' CR
            then (removelast line', false, None, b)
            else (line', false, None, b)
          else (line, false, None, b)
      end
  end.

(** The bytes a reader still has to deliver. *)
Definition stream (b : Reader) : bytes := buf b ++ pending (rd b).

End bufio.

Module textproto.

Import bufio.

(** The loop of [(r *Reader).readLineSlice]: the pieces of one line are
    appended until [ReadLine] reports the end of the line. *)
Fixpoint readLineSlice_loop (fuel : nat) (b : Reader) (line : bytes)
  : (bytes + ioerr) * Reader :=
  match fuel with
  | O => (inr OutOfFuel, b)
  | S fuel' =>
      let '(l, more, e, b) := ReadLine b in
      match e with
      | Some e => (inr e, b)
      | None =>
          if more then readLineSlice_loop fuel' b (line ++ l)
          else (inl (line ++ l), b)
      end
  end.

(** [(r *Reader).readLineSlice(-1)]: every unfinished piece takes bytes
    off the stream, so its length bounds the loop. *)
Definition readLineSlice (b : Reader) : (bytes + ioerr) * Reader :=
  readLineSlice_loop (S (List.length (stream b))) b [].

End textproto.

Module http.

Import bufio textproto.

Definition StatusOK : Z := 200.

(** The fields of [http.Response] that the proxy reads, and the protocol
    version. *)
Record Response := {
  Status : string;
  StatusCode : Z;
  Proto : string
}.

(** [strings.Cut(s, " ")] *)
Fixpoint Cut_space (s : string) : option (string * string) :=
  match s with
  | EmptyString => None
  | String c s' =>
      if Ascii.eqb c SP then Some (EmptyString, s')
      else match Cut_space s' with
           | Some (before, after) => Some (String c before, after)
           | None => None
           end
  end.

(** [strings.TrimLeft(s, " ")] *)
Fixpoint TrimLeft_space (s : string) : string :=
  match s with
  | String c s' => if Ascii.eqb c SP then TrimLeft_space s' else s
  | EmptyString => EmptyString
  end.

Definition digit (c : ascii) : option Z :=
  let n := Z.of_N (N_of_ascii c) in
  if (Z.leb 48 n && Z.leb n 57)%bool then Some (n - 48)%Z else None.

Fixpoint digits (s : string) (acc : Z) : option Z :=
  match s with
  | EmptyString => Some acc
  | String c s' =>
      match digit c with
      | Some d => digits s' (acc * 10 + d)%Z
      | None => None
      end
  end.

(** [strconv.Atoi] on a short string: an optional sign and digits. *)
Definition Atoi (s : string) : option Z :=
  match s with
  | EmptyString => None
  | String c s' =>
      if Ascii.eqb c "-" then
        match s' with
        | EmptyString => None
        | _ => option_map Z.opp (digits s' 0)
        end
      else if Ascii.eqb c "+" then
        match s' with
        | EmptyString => None
        | _ => digits s' 0
        end
      else digits s 0
  end.

(** [http.ParseHTTPVersion], its [ok] result: ["HTTP/X.Y"] with two
    decimal digits. *)
Definition ParseHTTPVersion_ok (vers : string) : bool :=
  (String.eqb vers "HTTP/1.1" || String.eqb vers "HTTP/1.0" ||
   (String.prefix "HTTP/" vers &&
    Nat.eqb (String.length vers) 8 &&
    match String.get 6 vers with Some c => Ascii.eqb c "." | None => false end &&
    match String.get 5 vers with
    | Some c => match digit c with Some _ => true | None => false end
    | None => false
    end &&
    match String.get 7 vers with
    | Some c => match digit c with Some _ => true | None => false end
    | None => false
    end))%bool.

(** The status line as [http.ReadResponse] parses it. *)
Definition parseStatusLine (line : string) : option Response :=
  match Cut_space line with
  | None => None
  | Some (proto, status) =>
      let status := TrimLeft_space status in
      let statusCode :=
        match Cut_space status with
        | Some (code, _) => code
        | None => status
        end in
      if negb (Nat.eqb (String.length statusCode) 3) then None
      else match Atoi statusCode with
           | None => None
           | Some code =>
               if (code <? 0)%Z then None
               else if negb (ParseHTTPVersion_ok proto) then None
               else Some {| Status := status; StatusCode := code;
                            Proto := proto |}
           end
  end.

(** The header lines up to the empty line that ends the header block. *)
Fixpoint readHeaderLines (fuel : nat) (b : Reader) (acc : list bytes)
  : (list bytes + ioerr) * Reader :=
  match fuel with
  | O => (inr OutOfFuel, b)
  | S fuel' =>
      match readLineSlice b with
      | (inr e, b) => (inr e, b)
      | (inl [], b) => (inl acc, b)
      | (inl l, b) => readHeaderLines fuel' b (acc ++ [l])
      end
  end.

(** [http.ReadResponse(br, req)] for a [CONNECT] request: the status
    line, then the header lines through the empty line; no byte of a
    body is read.  What [ReadMIMEHeader] and [readTransfer] accept as
    header lines is the parameter [headers_ok] (their look-ahead for
    continuation lines uses [Peek] and [UnreadByte] and takes nothing
    off the stream). *)
Definition ReadResponse (headers_ok : list bytes -> bool) (b : Reader)
  : result Response * Reader :=
  match readLineSlice b with
  | (inr EOF, b) => (Err "unexpected EOF", b)
  | (inr e, b) => (Err (ioerr_text e), b)
  | (inl line, b) =>
      match parseStatusLine (string_of_list_ascii line) with
      | None => (Err "malformed HTTP response", b)
      | Some resp =>
          match readHeaderLines (S (List.length (stream b))) b [] with
          | (inr EOF, b) => (Err "unexpected EOF", b)
          | (inr e, b) => (Err (ioerr_text e), b)
          | (inl hs, b) =>
              if headers_ok hs then (Ok resp, b)
              else (Err "malformed MIME header line", b)
          end
      end
  end.

End http.

(* ================================================================== *)
(** * Package [proxy]: the upstream connector and the handler          *)
(* ================================================================== *)

Module proxy.

Import netconn.

(** ** Data *)

(** [url.Userinfo] and the parts of [url.URL] the proxy reads; [Hostname]
    and [Port] hold the results of the methods of these names. *)
Record Userinfo := {
  username : string;
  password : string;
  passwordSet : bool
}.

Record URL := {
  Scheme : string;
  Host : string;
  Hostname : string;
  Port : string;
  User : option Userinfo
}.

(** [type Upstream struct { url *url.URL }] *)
Record Upstream := { url : URL }.

(** [func NewUpstream(proxyURL *url.URL) *Upstream] *)
Definition NewUpstream (proxyURL : URL) : Upstream := {| url := proxyURL |}.

(** The [http.Request] that [connectHTTP] builds. *)
Record Request := {
  Method : string;
  Opaque : string;
  ReqHost : string;
  BasicAuth : option (string * string)
}.

(** [proxy.Auth] of [golang.org/x/net/proxy] *)
Record Auth := { AuthUser : string; AuthPassword : string }.

(** [net.TCPAddr] *)
Record TCPAddr := { IP : net.IP; TPort : Z }.

(** [sockaddrIn], [sockaddrIn6]; [Port] is kept as the two bytes the
    field occupies in memory, in address order. *)
Record sockaddrIn := {
  Family : Z;
  SPort : Z * Z;
  Addr : Z * Z * Z * Z;
  Zero : list Z
}.

Record sockaddrIn6 := {
  Family6 : Z;
  SPort6 : Z * Z;
  Flowinfo : Z;
  Addr6 : list Z;
  ScopeID : Z
}.

Definition SO_ORIGINAL_DST : Z := 80.
Definition IP6T_SO_ORIGINAL_DST : Z := 80.
Definition SOL_IP : Z := 0.
Definition SOL_IPV6 : Z := 41.

(** [bufferedConn]: in Go the embedded [net.Conn] and the connection
    under [reader] are one object; here it is stored once, in the
    reader. *)
Record bufferedConn := { reader : bufio.Reader }.

Definition bufferedConn_Conn (c : bufferedConn) : Conn :=
  bufio.rd (reader c).

(** The [net.Conn] values that [Connect] and [DirectConnect] return. *)
Inductive NetConn :=
| Buffered (c : bufferedConn)
| Plain (c : Conn).

(** ** The world outside the process *)

Record Env := {
  clientConn_File : result Z;
  getsockopt_SOL_IP : Z -> Z * sockaddrIn;
  getsockopt_SOL_IPV6 : Z -> Z * sockaddrIn6;
  IP_String : net.IP -> string;
  TCPAddr_String : TCPAddr -> string;
  LookupAddr : string -> list string * option string;
  net_Dial : string -> result Conn;
  req_Write : Request -> option string;
  headers_ok : list bytes -> bool;
  SOCKS5_new : string -> option Auth -> option string;
  SOCKS5_Dial : string -> option Auth -> string -> result Conn
}.

(** The calls that leave the function, in the order in which they are
    made.  [EvRelay] is the call of [Relay], which copies in both
    directions in two goroutines and returns when the first of them is
    done; what it copies is not part of the model. *)
Inductive Event :=
| EvFile
| EvFileClose
| EvGetsockopt (fd level optname errno : Z)
| EvLookupAddr (addr : string)
| EvMatch (domain : string) (ip : net.IP)
| EvDial (addr : string)
| EvSOCKS5Dial (proxyAddr : string) (auth : option Auth) (targetAddr : string)
| EvWriteRequest (req : Request)
| EvCloseServer
| EvRelay
| EvCloseClient
| EvPanic.

(** ** The upstream connector *)

(** [net.JoinHostPort] *)
Definition JoinHostPort (host port : string) : string :=
  match String.index 0 ":" host with
  | Some _ => "[" ++ host ++ "]:" ++ port
  | None => host ++ ":" ++ port
  end.

(** [func (c *bufferedConn) Read(b []byte) (int, error)] with
    [len(b) = n] *)
Definition bufferedConn_Read (c : bufferedConn) (n : nat)
  : bytes * option ioerr * bufferedConn :=
  let '(data, e, r) := bufio.Read (reader c) n in
  (data, e, {| reader := r |}).

(** The address of the upstream that both connectors dial:
    [u.url.Host], or the host name joined with the default port when the
    URL has no port. *)
Definition proxyAddr (u : Upstream) (defaultPort : string) : string :=
  if String.eqb (Port (url u)) "" then
    JoinHostPort (Hostname (url u)) defaultPort
  else Host (url u).

(** The [CONNECT] request of [connectHTTP], with basic authentication
    when the URL has user information. *)
Definition connectRequest (u : Upstream) (targetAddr : string) : Request :=
  {| Method := "CONNECT";
     Opaque := targetAddr;
     ReqHost := targetAddr;
     BasicAuth :=
       match User (url u) with
       | Some ui => Some (username ui, password ui)
       | None => None
       end |}.

(** [func (u *Upstream) connectHTTP(targetAddr string) (net.Conn, error)] *)
Definition connectHTTP (env : Env) (u : Upstream) (targetAddr : string)
  : result bufferedConn * list Event :=
  let proxyAddr := proxyAddr u "8080" in
  match net_Dial env proxyAddr with
  | Err e => (Err ("failed to connect to HTTP proxy: " ++ e), [EvDial proxyAddr])
  | Ok conn =>
      let req := connectRequest u targetAddr in
      match req_Write env req with
      | Some e =>
          (Err ("failed to send CONNECT request: " ++ e),
           [EvDial proxyAddr; EvWriteRequest req; EvCloseServer])
      | None =>
          let br := bufio.NewReader conn in
          match http.ReadResponse (headers_ok env) br with
          | (Err e, _) =>
              (Err ("failed to read CONNECT response: " ++ e),
               [EvDial proxyAddr; EvWriteRequest req; EvCloseServer])
          | (Ok resp, br) =>
              if negb (Z.eqb (http.StatusCode resp) http.StatusOK) then
                (Err ("CONNECT failed with status: " ++ http.Status resp),
                 [EvDial proxyAddr; EvWriteRequest req; EvCloseServer])
              else
                (Ok {| reader := br |},
                 [EvDial proxyAddr; EvWriteRequest req])
          end
      end
  end.

(** [func (u *Upstream) connectSOCKS5(targetAddr string) (net.Conn, error)] *)
Definition connectSOCKS5 (env : Env) (u : Upstream) (targetAddr : string)
  : result Conn * list Event :=
  let proxyAddr := proxyAddr u "1080" in
  let auth :=
    match User (url u) with
    | Some ui => Some {| AuthUser := username ui; AuthPassword := password ui |}
    | None => None
    end in
  match SOCKS5_new env proxyAddr auth with
  | Some e => (Err ("failed to create SOCKS5 dialer: " ++ e), [])
  | None =>
      match SOCKS5_Dial env proxyAddr auth targetAddr with
      | Err e => (Err ("failed to connect through SOCKS5: " ++ e),
                  [EvSOCKS5Dial proxyAddr auth targetAddr])
      | Ok conn => (Ok conn, [EvSOCKS5Dial proxyAddr auth targetAddr])
      end
  end.

(** [func (u *Upstream) Connect(targetAddr string) (net.Conn, error)] *)
Definition Connect (env : Env) (u : Upstream) (targetAddr : string)
  : result NetConn * list Event :=
  if String.eqb (Scheme (url u)) "http" then
    match connectHTTP env u targetAddr with
    | (Ok c, evs) => (Ok (Buffered c), evs)
    | (Err e, evs) => (Err e, evs)
    end
  else if String.eqb (Scheme (url u)) "socks5" then
    match connectSOCKS5 env u targetAddr with
    | (Ok c, evs) => (Ok (Plain c), evs)
    | (Err e, evs) => (Err e, evs)
    end
  else (Err ("unsupported proxy scheme: " ++ Scheme (url u)), []).

(** [func DirectConnect(targetAddr string) (net.Conn, error)] *)
Definition DirectConnect (env : Env) (targetAddr : string)
  : result NetConn * list Event :=
  match net_Dial env targetAddr with
  | Err e => (Err ("failed to connect directly: " ++ e), [EvDial targetAddr])
  | Ok conn => (Ok (Plain conn), [EvDial targetAddr])
  end.

(** ** proxy/transparent.go *)

(** [type TransparentProxy struct]; the matcher is its rule list, the
    listener plays no part in the handling of one connection. *)
Record TransparentProxy := {
  listenAddr : string;
  upstream : option Upstream;
  matcher : list rules.Rule
}.

(** [binary.BigEndian.Uint16] of the two bytes of the port field *)
Definition BigEndian_Uint16 (p : Z * Z) : Z :=
  (Z.lor (Z.shiftl (fst p) 8) (snd p))%Z.

(** [func getOriginalDstIPv4(fd int) (addr *net.TCPAddr, err error)]; the
    error is the errno of the system call. *)
Definition getOriginalDstIPv4 (env : Env) (fd : Z)
  : (TCPAddr + Z) * list Event :=
  let '(errno, addr) := getsockopt_SOL_IP env fd in
  let ev := [EvGetsockopt fd SOL_IP SO_ORIGINAL_DST errno] in
  if negb (Z.eqb errno 0) then (inr errno, ev)
  else
    let '(a, b, c, d) := Addr addr in
    (inl {| IP := net.IPv4 a b c d; TPort := BigEndian_Uint16 (SPort addr) |},
     ev).

(** [func getOriginalDstIPv6(fd int) (addr *net.TCPAddr, err error)] *)
Definition getOriginalDstIPv6 (env : Env) (fd : Z)
  : (TCPAddr + Z) * list Event :=
  let '(errno, addr) := getsockopt_SOL_IPV6 env fd in
  let ev := [EvGetsockopt fd SOL_IPV6 IP6T_SO_ORIGINAL_DST errno] in
  if negb (Z.eqb errno 0) then (inr errno, ev)
  else
    (inl {| IP := firstn 16 (Addr6 addr);
            TPort := BigEndian_Uint16 (SPort6 addr) |},
     ev).

Definition both_failed : string :=
  "failed to get original destination for both IPv4 and IPv6".

(** [func getOriginalDst(conn *net.TCPConn) (addr *net.TCPAddr, err error)] *)
Definition getOriginalDst (env : Env) : result TCPAddr * list Event :=
  match clientConn_File env with
  | Err e => (Err ("failed to get file descriptor: " ++ e), [EvFile])
  | Ok fd =>
      match getOriginalDstIPv4 env fd with
      | (inl addr, ev4) => (Ok addr, [EvFile] ++ ev4 ++ [EvFileClose])
      | (inr _, ev4) =>
          match getOriginalDstIPv6 env fd with
          | (inl addr, ev6) =>
              (Ok addr, [EvFile] ++ ev4 ++ ev6 ++ [EvFileClose])
          | (inr _, ev6) =>
              (Err both_failed, [EvFile] ++ ev4 ++ ev6 ++ [EvFileClose])
          end
      end
  end.

(** The domain that [handleConnection] derives from the answer of
    [net.LookupAddr]: the first name without one trailing dot, or the
    empty string. *)
Definition last_is_dot (s : string) : bool :=
  match String.get (String.length s - 1) s with
  | Some c => Ascii.eqb c "."
  | None => false
  end.

Definition lookup_domain (names : list string) (err : option string)
  : string :=
  match err, names with
  | None, name :: _ =>
      if (Nat.ltb 0 (String.length name) && last_is_dot name)%bool
      then substring 0 (String.length name - 1) name
      else name
  | _, _ => EmptyString
  end.

(** [func (tp *TransparentProxy) handleConnection(clientConn *net.TCPConn)]:
    the calls it makes; the deferred [Close] calls run last, the server's
    before the client's.  Logging is left out. *)
Definition handleConnection (env : Env) (tp : TransparentProxy)
  : list Event :=
  match getOriginalDst env with
  | (Err _, ev) => ev ++ [EvCloseClient]
  | (Ok origDst, ev) =>
      let targetAddr := TCPAddr_String env origDst in
      let ip := IP origDst in
      let '(names, lerr) := LookupAddr env (IP_String env ip) in
      let domain := lookup_domain names lerr in
      let result := rules.Match (matcher tp) domain (Some ip) in
      let ev := ev ++ [EvLookupAddr (IP_String env ip); EvMatch domain ip] in
      let policy := rules.MPolicy result in
      if String.eqb policy config.PolicyReject then
        ev ++ [EvCloseClient]
      else
        let '(serverConn, err, evc) :=
          if String.eqb policy config.PolicyDirect then
            match DirectConnect env targetAddr with
            | (Ok c, evc) => (Some c, None, evc)
            | (Err e, evc) => (None, Some e, evc)
            end
          else if String.eqb policy config.PolicyProxy then
            match upstream tp with
            | None =>
                match DirectConnect env targetAddr with
                | (Ok c, evc) => (Some c, None, evc)
                | (Err e, evc) => (None, Some e, evc)
                end
            | Some u =>
                match Connect env u targetAddr with
                | (Ok c, evc) => (Some c, None, evc)
                | (Err e, evc) => (None, Some e, evc)
                end
            end
          else (None, lerr, []) in
        match err, serverConn with
        | Some _, _ => ev ++ evc ++ [EvCloseClient]
        | None, None => ev ++ evc ++ [EvPanic; EvCloseClient]
        | None, Some _ =>
            ev ++ evc ++ [EvRelay; EvCloseServer; EvCloseClient]
        end
  end.

End proxy.

(* ================================================================== *)
(** * Configuration: [config.Validate] and [NewTransparentProxy]       *)
(* ================================================================== *)

Module setup.

(** [type Config struct] of config/config.go; [UpstreamURL] is a pointer,
    [nil] is [None]. *)
Record Config := {
  Listen : string;
  Upstream : string;
  Rules : list string;
  LogLevel : string;
  UpstreamURL : option proxy.URL
}.

(** [func (c *Config) Validate() error]; [url.Parse] belongs to Go's
    standard library and is a parameter.  The configuration after the call
    is returned with the error. *)
Definition Validate (url_Parse : string -> result proxy.URL) (c : Config)
  : option string * Config :=
  if String.eqb (Listen c) "" then
    (Some "listen address is required", c)
  else if String.eqb (Upstream c) "" then
    (Some "upstream proxy URL is required", c)
  else
    match url_Parse (Upstream c) with
    | Err e => (Some ("invalid upstream URL: " ++ e)%string, c)
    | Ok u =>
        if (negb (String.eqb (proxy.Scheme u) "http") &&
            negb (String.eqb (proxy.Scheme u) "socks5"))%bool then
          (Some ("upstream must be http:// or socks5://, got " ++
                 proxy.Scheme u)%string, c)
        else
          (None,
           {| Listen := Listen c; Upstream := Upstream c; Rules := Rules c;
              LogLevel := LogLevel c; UpstreamURL := Some u |})
    end.

(** [func NewTransparentProxy(cfg *config.Config, matcher *rules.Matcher)
    *TransparentProxy] of proxy/transparent.go *)
Definition NewTransparentProxy (cfg : Config) (matcher : list rules.Rule)
  : proxy.TransparentProxy :=
  let upstream :=
    match UpstreamURL cfg with
    | Some u => Some (proxy.NewUpstream u)
    | None => None
    end in
  {| proxy.listenAddr := Listen cfg;
     proxy.upstream := upstream;
     proxy.matcher := matcher |}.

End setup.

(* ================================================================== *)
(** * Vocabulary of the statements                                     *)
(* ================================================================== *)

Section Vocabulary.

Import strings rules.

(** The rules of the order test [TestMatcher_RuleOrder]. *)
Definition rule_google_proxy : Rule :=
  {| Type_ := RuleTypeDomainSuffix; Value := "google.com";
     Policy := config.PolicyProxy; Network := None |}.

Definition rule_any_direct : Rule :=
  {| Type_ := RuleTypeIPCIDR; Value := "0.0.0.0/0";
     Policy := config.PolicyDirect;
     Network := Some {| net.IP_ := [0; 0; 0; 0]%Z;
                        net.Mask := [0; 0; 0; 0]%Z |} |}.


(** The comma-separated fields of a line and its type token, as
    [ParseRule] computes them. *)
Definition fields (line : string) : list string :=
  Split (TrimSpace line) ",".

Definition type_token (line : string) : RuleType :=
  ToUpper (TrimSpace (part (fields line) 0)).

Definition policy_token (line : string) (i : nat) : config.Policy :=
  ToUpper (TrimSpace (part (fields line) i)).

Definition valid_policy (p : config.Policy) : Prop :=
  p = config.PolicyProxy \/ p = config.PolicyDirect \/ p = config.PolicyReject.

Definition domain_type (t : RuleType) : Prop :=
  t = RuleTypeDomain \/ t = RuleTypeDomainSuffix \/ t = RuleTypeDomainKeyword.

Definition cidr_type (t : RuleType) : Prop :=
  t = RuleTypeIPCIDR \/ t = RuleTypeIPCIDR6.

(** ** The redirect rule *)

(** The table and the chain that [Setup] creates: a NAT chain at the
    local-output hook. *)
Definition proxy_table : iptables.Table :=
  {| iptables.TFamily := iptables.TableFamilyIPv4;
     iptables.TName := iptables.tableName |}.

Definition output_chain : iptables.Chain :=
  {| iptables.CName := "output";
     iptables.CTable := Some proxy_table;
     iptables.CType := iptables.ChainTypeNAT;
     iptables.CHooknum := iptables.ChainHookOutput;
     iptables.CPriority := iptables.ChainPriorityNATDest |}.

(** The redirect rule of the specification for the owner [uid], the
    destination port [dport] and the listening port [lport]:
    (i) the L4 protocol is TCP (6); (ii) the uid of the socket's owner is
    not [uid]; (iii) the two bytes at offset 2 of the transport header,
    the destination port, are [dport]; (iv) the mark is set to 0x1;
    (v) the packet is redirected to [lport]. *)
Definition redirect_exprs (uid dport lport : Z) : list iptables.Any :=
  [ iptables.Meta iptables.MetaKeyL4PROTO false 1;
    iptables.Cmp iptables.CmpOpEq 1 [6%Z];
    iptables.Meta iptables.MetaKeySKUID false 1;
    iptables.Cmp iptables.CmpOpNeq 1 (iptables.binaryUint32 uid);
    iptables.Payload 1 iptables.PayloadBaseTransportHeader 2 2;
    iptables.Cmp iptables.CmpOpEq 1 (iptables.binaryPort dport);
    iptables.Immediate 1 (iptables.binaryUint32 1);
    iptables.Meta iptables.MetaKeyMARK true 1;
    iptables.Immediate 1 (iptables.binaryPort lport);
    iptables.Redir 1 1 ].

Definition redirect_rule (uid dport lport : Z) : iptables.Rule :=
  {| iptables.RTable := Some proxy_table;
     iptables.RChain := output_chain;
     iptables.Exprs := redirect_exprs uid dport lport |}.

(** A kernel on which nothing has been done yet. *)
Definition kernel0 : iptables.Kernel :=
  {| iptables.queue := []; iptables.batches := []; iptables.rtcalls := [] |}.

(** A process whose real user id is 1000 and whose effective user id is
    0 (a set-user-ID root binary started by user 1000), on a kernel where
    every call succeeds and no table exists. *)
Definition env_setuid : iptables.Env :=
  {| iptables.Getuid := 1000;
     iptables.Geteuid := 0;
     iptables.nftables_New := None;
     iptables.ListTables := Ok [];
     iptables.netlink_RuleAdd := None;
     iptables.netlink_LinkByName_lo := Ok 1%Z;
     iptables.netlink_RouteAdd := None;
     iptables.Flush_err := None |}.

(** ** The meaning of a rule

    How the kernel's rule evaluation treats the expressions above on a
    packet: a load puts bytes into the register (integers in the byte
    order of a little-endian host, packet bytes as they are), a
    comparison that fails ends the rule without a verdict, and [Redir]
    ends it with the redirection to the port in the register. *)
Record Packet := {
  l4proto : Z;
  skuid : Z;
  transport_header : list Z;
  pmark : list Z
}.

Inductive Verdict :=
| NoVerdict
| Redirected (mark : list Z) (port : list Z).

Definition bytes_eqb (a b : list Z) : bool :=
  if list_eq_dec Z.eq_dec a b then true else false.

Fixpoint eval_exprs (es : list iptables.Any) (reg mark : list Z)
         (p : Packet) : Verdict :=
  match es with
  | [] => NoVerdict
  | iptables.Meta key false _ :: es' =>
      let v := match key with
               | iptables.MetaKeyL4PROTO => [l4proto p]
               | iptables.MetaKeySKUID => iptables.binaryUint32 (skuid p)
               | iptables.MetaKeyMARK => mark
               end in
      eval_exprs es' v mark p
  | iptables.Meta iptables.MetaKeyMARK true _ :: es' =>
      eval_exprs es' reg (firstn 4 reg) p
  | iptables.Meta _ true _ :: _ => NoVerdict
  | iptables.Cmp op _ data :: es' =>
      let same := bytes_eqb (firstn (List.length data) reg) data in
      match op with
      | iptables.CmpOpEq => if same then eval_exprs es' reg mark p else NoVerdict
      | iptables.CmpOpNeq => if same then NoVerdict else eval_exprs es' reg mark p
      end
  | iptables.Payload _ iptables.PayloadBaseTransportHeader off len :: es' =>
      eval_exprs es'
        (firstn (Z.to_nat len) (skipn (Z.to_nat off) (transport_header p)))
        mark p
  | iptables.Payload _ _ _ _ :: _ => NoVerdict
  | iptables.Immediate _ data :: es' => eval_exprs es' data mark p
  | iptables.Redir _ _ :: _ => Redirected mark (firstn 2 reg)
  end.

(** ** Connections *)

(** The events that reach out to a server: dialling, the SOCKS5
    handshake, writing the [CONNECT] request, relaying, and closing the
    server's connection. *)
Definition is_outbound (e : proxy.Event) : bool :=
  match e with
  | proxy.EvDial _ | proxy.EvSOCKS5Dial _ _ _ | proxy.EvWriteRequest _
  | proxy.EvRelay | proxy.EvCloseServer => true
  | _ => false
  end.

(** The two attempts of [getOriginalDst] as events. *)
Definition attempt4 (fd errno : Z) : proxy.Event :=
  proxy.EvGetsockopt fd proxy.SOL_IP proxy.SO_ORIGINAL_DST errno.

Definition attempt6 (fd errno : Z) : proxy.Event :=
  proxy.EvGetsockopt fd proxy.SOL_IPV6 proxy.IP6T_SO_ORIGINAL_DST errno.


(** An intercepted connection to 8.8.8.8:443 whose address resolves to
    [dns.google.], with an upstream that answers the pieces [chunks]. *)
Definition example_sockaddr : proxy.sockaddrIn :=
  {| proxy.Family := 2; proxy.SPort := (1, 187)%Z;
     proxy.Addr := (8, 8, 8, 8)%Z; proxy.Zero := repeat 0%Z 8 |}.

Definition example_sockaddr6 : proxy.sockaddrIn6 :=
  {| proxy.Family6 := 0; proxy.SPort6 := (0, 0)%Z; proxy.Flowinfo := 0;
     proxy.Addr6 := repeat 0%Z 16; proxy.ScopeID := 0 |}.

Definition example_env (chunks : list bytes) : proxy.Env :=
  {| proxy.clientConn_File := Ok 7%Z;
     proxy.getsockopt_SOL_IP := fun _ => (0%Z, example_sockaddr);
     proxy.getsockopt_SOL_IPV6 := fun _ => (92%Z, example_sockaddr6);
     proxy.IP_String := fun _ => "8.8.8.8";
     proxy.TCPAddr_String := fun _ => "8.8.8.8:443";
     proxy.LookupAddr := fun _ => (["dns.google."], None);
     proxy.net_Dial :=
       fun _ => Ok {| netconn.incoming := chunks; netconn.closed := false |};
     proxy.req_Write := fun _ => None;
     proxy.headers_ok := fun _ => true;
     proxy.SOCKS5_new := fun _ _ => None;
     proxy.SOCKS5_Dial := fun _ _ _ => Err "unreachable" |}.

Definition example_upstream : proxy.Upstream :=
  {| proxy.url := {| proxy.Scheme := "http"; proxy.Host := "proxy:8080";
                     proxy.Hostname := "proxy"; proxy.Port := "8080";
                     proxy.User := None |} |}.

Definition example_proxy (p : config.Policy) : proxy.TransparentProxy :=
  {| proxy.listenAddr := ":12345";
     proxy.upstream := Some example_upstream;
     proxy.matcher := [ {| Type_ := RuleTypeDomainKeyword; Value := "google";
                           Policy := p; Network := None |} ] |}.

(** ** Byte streams *)

(** A reader whose connection is open and that holds no error while the
    connection still has bytes to deliver; the only error a reader holds
    is the end of the stream. *)
Definition good (b : bufio.Reader) : Prop :=
  netconn.closed (bufio.rd b) = false /\
  (bufio.err b = None \/
   (bufio.err b = Some EOF /\ netconn.pending (bufio.rd b) = [])).

(** A line without its end-of-line bytes: [l] is what precedes the line
    feed, and one carriage return before the line feed belongs to the end
    of the line. *)
Definition chomp (l : bytes) : bytes :=
  if bufio.ends_with l CR then removelast l else l.

(** The header lines of a response and the empty line that ends them:
    every line ends with its first line feed, the last line is empty and
    no line before it is. *)
Inductive header_lines : bytes -> Prop :=
| header_end (l : bytes) :
    ~ In LF l -> chomp l = [] -> header_lines (l ++ [LF])
| header_line (l rest : bytes) :
    ~ In LF l -> chomp l <> [] -> header_lines rest ->
    header_lines (l ++ [LF] ++ rest).

(** The header block of a response: the status line and the header lines
    through the first empty line. *)
Definition header_block (hdr : bytes) : Prop :=
  exists l rest, ~ In LF l /\ hdr = l ++ [LF] ++ rest /\ header_lines rest.

(** The reads of a caller on the tunnel: one [Read] for each buffer length
    of [ns], with the bytes they return put end to end. *)
Fixpoint read_seq (c : proxy.bufferedConn) (ns : list nat)
  : bytes * proxy.bufferedConn :=
  match ns with
  | [] => ([], c)
  | n :: ns' =>
      let '(d, _, c1) := proxy.bufferedConn_Read c n in
      let '(ds, c2) := read_seq c1 ns' in
      (d ++ ds, c2)
  end.

Definition ascii_bytes (s : string) : bytes := list_ascii_of_string s.

(** The answers of two upstreams, each followed at once by the first bytes
    of the target, in the pieces in which they arrive. *)
Definition answer_200 : list bytes :=
  [ ascii_bytes "HTTP/1.1 200 Connection Established" ++ [CR; LF] ++ [CR];
    [LF] ++ ascii_bytes "target "; ascii_bytes "response" ].

Definition answer_204 : list bytes :=
  [ ascii_bytes "HTTP/1.1 204 No Content" ++ [CR; LF; CR; LF] ++
    ascii_bytes "target response" ].

(** ** Further examples *)

(** A [net.ParseCIDR] that answers 10.0.0.0/8 for every value, and the
    rule that [ParseRule] builds with it. *)
Definition ten_net : net.IPNet :=
  {| net.IP_ := [10; 0; 0; 0]%Z; net.Mask := [255; 0; 0; 0]%Z |}.

Definition example_cidr : string -> option net.IPNet := fun _ => Some ten_net.

Definition example_cidr_rule : Rule :=
  {| Type_ := RuleTypeIPCIDR; Value := "10.0.0.0/8";
     Policy := config.PolicyDirect; Network := Some ten_net |}.

(** A rule of a given type. *)
Definition typed_rule (t : RuleType) (v : string) (p : config.Policy)
           (n : option net.IPNet) : Rule :=
  {| Type_ := t; Value := v; Policy := p; Network := n |}.

(** A kernel that refuses the batch, and a kernel without loopback
    interface. *)
Definition env_flush_fails : iptables.Env :=
  {| iptables.Getuid := 0;
     iptables.Geteuid := 0;
     iptables.nftables_New := None;
     iptables.ListTables := Ok [];
     iptables.netlink_RuleAdd := None;
     iptables.netlink_LinkByName_lo := Ok 1%Z;
     iptables.netlink_RouteAdd := None;
     iptables.Flush_err := Some "operation not supported" |}.

Definition env_no_loopback : iptables.Env :=
  {| iptables.Getuid := 0;
     iptables.Geteuid := 0;
     iptables.nftables_New := None;
     iptables.ListTables := Ok [];
     iptables.netlink_RuleAdd := None;
     iptables.netlink_LinkByName_lo := Err "Link not found";
     iptables.netlink_RouteAdd := None;
     iptables.Flush_err := None |}.

(** The result of a connector as the [net.Conn] that [Connect] returns. *)
Definition as_NetConn {A : Type} (wrap : A -> proxy.NetConn)
           (r : result A * list proxy.Event)
  : result proxy.NetConn * list proxy.Event :=
  match r with
  | (Ok c, evs) => (Ok (wrap c), evs)
  | (Err e, evs) => (Err e, evs)
  end.

(** An environment with another answer of the resolver. *)
Definition with_LookupAddr (env : proxy.Env)
           (f : string -> list string * option string) : proxy.Env :=
  {| proxy.clientConn_File := proxy.clientConn_File env;
     proxy.getsockopt_SOL_IP := proxy.getsockopt_SOL_IP env;
     proxy.getsockopt_SOL_IPV6 := proxy.getsockopt_SOL_IPV6 env;
     proxy.IP_String := proxy.IP_String env;
     proxy.TCPAddr_String := proxy.TCPAddr_String env;
     proxy.LookupAddr := f;
     proxy.net_Dial := proxy.net_Dial env;
     proxy.req_Write := proxy.req_Write env;
     proxy.headers_ok := proxy.headers_ok env;
     proxy.SOCKS5_new := proxy.SOCKS5_new env;
     proxy.SOCKS5_Dial := proxy.SOCKS5_Dial env |}.

(** A configuration as the README gives it, and a [url.Parse] that
    answers the URL of [example_upstream]. *)
Definition example_config : setup.Config :=
  {| setup.Listen := ":12345";
     setup.Upstream := "http://proxy:8080";
     setup.Rules := ["MATCH,DIRECT"];
     setup.LogLevel := "info";
     setup.UpstreamURL := None |}.

Definition example_url_Parse : string -> result proxy.URL :=
  fun _ => Ok (proxy.url example_upstream).

(** The events that end the handling of a connection. *)
Definition is_final (e : proxy.Event) : bool :=
  match e with
  | proxy.EvRelay | proxy.EvCloseClient | proxy.EvPanic => true
  | _ => false
  end.

(** An intercepted connection as [example_env] has it, whose upstream
    cannot be dialled. *)
Definition example_env_down : proxy.Env :=
  {| proxy.clientConn_File := Ok 7%Z;
     proxy.getsockopt_SOL_IP := fun _ => (0%Z, example_sockaddr);
     proxy.getsockopt_SOL_IPV6 := fun _ => (92%Z, example_sockaddr6);
     proxy.IP_String := fun _ => "8.8.8.8";
     proxy.TCPAddr_String := fun _ => "8.8.8.8:443";
     proxy.LookupAddr := fun _ => (["dns.google."], None);
     proxy.net_Dial := fun _ => Err "connection refused";
     proxy.req_Write := fun _ => None;
     proxy.headers_ok := fun _ => true;
     proxy.SOCKS5_new := fun _ _ => None;
     proxy.SOCKS5_Dial := fun _ _ _ => Err "unreachable" |}.

(** A proxy without upstream. *)
Definition example_proxy_no_upstream (p : config.Policy)
  : proxy.TransparentProxy :=
  {| proxy.listenAddr := ":12345";
     proxy.upstream := None;
     proxy.matcher := [ {| Type_ := RuleTypeDomainKeyword; Value := "google";
                           Policy := p; Network := None |} ] |}.

End Vocabulary.

(* ================================================================== *)
(** * Vocabulary of the reading layers                                 *)
(* ================================================================== *)

Section ReaderVocabulary.

Import netconn bufio.

(** The outcome of [ReadSlice]: the bytes returned are taken off the front
    of the stream; without an error they are a line through its line
    feed, with [ErrBufferFull] a full buffer without line feed, otherwise
    the rest of a stream that has ended. *)
Definition ReadSlice_outcome (b b' : Reader) (line : bytes)
           (e : option ioerr) : Prop :=
  line ++ stream b' = stream b /\ good b' /\ size b' = size b /\
  match e with
  | None => exists l0, line = l0 ++ [LF] /\ ~ In LF l0
  | Some ErrBufferFull =>
      ~ In LF line /\ buf b' = [] /\ size b <= List.length line
  | Some OutOfFuel => False
  | Some _ => ~ In LF line /\ stream b' = []
  end.

(** The outcome of [ReadLine].  [raw] is what the call takes off the
    stream: an unfinished piece of a line ([isPrefix]), or a line through
    its line feed, returned without its end-of-line bytes, or the last
    bytes of a stream that ends without a line feed. *)
Definition ReadLine_outcome (b b' : Reader) (l : bytes) (more : bool)
           (e : option ioerr) : Prop :=
  good b' /\ size b' = size b /\
  exists raw, raw ++ stream b' = stream b /\
  match e with
  | Some OutOfFuel => False
  | Some _ => True
  | None =>
      if more then
        raw = l /\ l <> [] /\ ~ In LF l /\
        (ends_with l CR = true -> exists t, buf b' = CR :: t)
      else
        (exists l0, raw = l0 ++ [LF] /\ ~ In LF l0 /\ l = chomp l0)
        \/ (raw = l /\ l <> [] /\ ~ In LF l /\ stream b' = [])
  end.

(** The outcome of reading one text line onto the pieces [acc]: the bytes
    [raw] are taken off the stream, and either [acc] and [raw] are a line
    through its first line feed, returned without its end-of-line bytes,
    or the stream ends in the middle of the line. *)
Definition line_outcome (b b' : Reader) (acc : bytes) (r : bytes + ioerr)
  : Prop :=
  good b' /\ size b' = size b /\
  exists raw, raw ++ stream b' = stream b /\
  match r with
  | inr OutOfFuel => False
  | inr _ => True
  | inl line =>
      (exists l0, acc ++ raw = l0 ++ [LF] /\ ~ In LF l0 /\ line = chomp l0)
      \/ (line = acc ++ raw /\ line <> [] /\ ~ In LF line /\ stream b' = [])
  end.

End ReaderVocabulary.

(* ================================================================== *)
(** * Properties of the string functions                               *)
(* ================================================================== *)

Section StringFacts.

Import strings.
Local Open Scope string_scope.







Lemma Split_nonempty (s : string) (sep : ascii) : Split s sep <> [].
Proof.
  destruct s as [|c s]; simpl; [discriminate|].
  destruct (Ascii.eqb c sep); [discriminate|].
  destruct (Split s sep); discriminate.
Qed.

End StringFacts.

(* ================================================================== *)
(** * The matcher                                                      *)
(* ================================================================== *)

Section MatcherFacts.

Import strings rules.

Lemma Match_loop_first (m : list Rule) (domain : string) (ip : option net.IP) :
  (exists l1 r l2,
      m = l1 ++ r :: l2 /\
      Forall (fun r' => matchRule r' domain ip = false) l1 /\
      matchRule r domain ip = true /\
      Match_loop m domain ip = {| MPolicy := Policy r; MRule := Some r |})
  \/ (Forall (fun r' => matchRule r' domain ip = false) m /\
      Match_loop m domain ip =
        {| MPolicy := config.PolicyDirect; MRule := None |}).
Proof.
  induction m as [|r m IH]; simpl.
  - right. split; [constructor | reflexivity].
  - destruct (matchRule r domain ip) eqn:Hr.
    + left. exists [], r, m. repeat split; auto.
    + destruct IH as [(l1 & r0 & l2 & -> & Hl1 & Hr0 & Hres) | [Hall Hres]].
      * left. exists (r :: l1), r0, l2. repeat split; auto.
      * right. split; auto.
Qed.

(** C1.  [Match] tests the rules in the order of the list and answers
    with the policy and the rule of the first rule that matches the
    lower-cased domain and the address: the rules before it do not
    match.  When no rule matches, which includes the empty list, the
    answer is [DIRECT] with no rule.  For the rules
    [DOMAIN-SUFFIX google.com -> PROXY; IP-CIDR 0.0.0.0/0 -> DIRECT], the
    domain [www.google.com] and the address [8.8.8.8] the answer is
    [PROXY], although the second rule matches too. *)
Theorem Match_first_match :
  (forall (m : list Rule) (domain : string) (ip : option net.IP),
      (exists l1 r l2,
          m = l1 ++ r :: l2 /\
          Forall (fun r' => matchRule r' (ToLower domain) ip = false) l1 /\
          matchRule r (ToLower domain) ip = true /\
          Match m domain ip = {| MPolicy := Policy r; MRule := Some r |})
      \/ (Forall (fun r' => matchRule r' (ToLower domain) ip = false) m /\
          Match m domain ip =
            {| MPolicy := config.PolicyDirect; MRule := None |}))
  /\ (forall domain ip,
         Match [] domain ip =
           {| MPolicy := config.PolicyDirect; MRule := None |})
  /\ Match [rule_google_proxy; rule_any_direct] "www.google.com"
           (Some (net.IPv4 8 8 8 8))
     = {| MPolicy := config.PolicyProxy; MRule := Some rule_google_proxy |}
  /\ matchRule rule_any_direct (ToLower "www.google.com")
               (Some (net.IPv4 8 8 8 8)) = true.
Proof.
  split; [|split; [|split]].
  - intros m domain ip. unfold Match. apply Match_loop_first.
  - reflexivity.
  - vm_compute. reflexivity.
  - vm_compute. reflexivity.
Qed.



End MatcherFacts.

(* ================================================================== *)
(** * The rule parser                                                  *)
(* ================================================================== *)

Section ParserFacts.

Import strings rules.

Variable ParseCIDR : string -> option net.IPNet.

Lemma valid_policy_test (p : config.Policy) :
  (negb (String.eqb p config.PolicyProxy) &&
   negb (String.eqb p config.PolicyDirect) &&
   negb (String.eqb p config.PolicyReject))%bool = false <-> valid_policy p.
Proof.
  unfold valid_policy.
  destruct (String.eqb_spec p config.PolicyProxy);
    destruct (String.eqb_spec p config.PolicyDirect);
    destruct (String.eqb_spec p config.PolicyReject); simpl; intuition congruence.
Qed.

Lemma ParseRule_accepts (line : string) (r : Rule) :
  ParseRule ParseCIDR line = Ok r <->
  (type_token line = RuleTypeMatch /\ 2 <= List.length (fields line) /\
   valid_policy (policy_token line 1) /\
   r = {| Type_ := RuleTypeMatch; Value := EmptyString;
          Policy := policy_token line 1; Network := None |})
  \/ (domain_type (type_token line) /\ 3 <= List.length (fields line) /\
      valid_policy (policy_token line 2) /\
      r = {| Type_ := type_token line;
             Value := TrimSpace (part (fields line) 1);
             Policy := policy_token line 2; Network := None |})
  \/ (cidr_type (type_token line) /\ 3 <= List.length (fields line) /\
      valid_policy (policy_token line 2) /\
      exists network,
        ParseCIDR (TrimSpace (part (fields line) 1)) = Some network /\
        r = {| Type_ := type_token line;
               Value := TrimSpace (part (fields line) 1);
               Policy := policy_token line 2; Network := Some network |}).
Proof.
  unfold ParseRule, policy_token, type_token, fields, domain_type, cidr_type.
  set (parts := Split (TrimSpace line) ",").
  set (ty := ToUpper (TrimSpace (part parts 0))).
  set (v := TrimSpace (part parts 1)).
  destruct (Nat.ltb_spec (List.length parts) 2) as [Hlt|Hge].
  { split; [discriminate|]. intros [H|[H|H]]; decompose [and] H; lia. }
  destruct (String.eqb_spec ty RuleTypeMatch) as [Hm|Hm].
  - destruct (valid_policy_test (ToUpper v)) as [V1 V2].
    destruct (negb _ && _ && _)%bool.
    + split; [discriminate|].
      intros [H|[H|H]].
      * destruct H as (_ & _ & Hv & _). specialize (V2 Hv). discriminate.
      * destruct H as ([H|[H|H]] & _); rewrite Hm in H; discriminate.
      * destruct H as ([H|H] & _); rewrite Hm in H; discriminate.
    + rewrite Hm. simpl. split.
      * intros H. injection H as <-. left. auto.
      * intros [H|[H|H]].
        -- destruct H as (_ & _ & _ & ->). reflexivity.
        -- destruct H as ([H|[H|H]] & _); discriminate.
        -- destruct H as ([H|H] & _); discriminate.
  - destruct (Nat.ltb_spec (List.length parts) 3) as [Hlt3|Hge3].
    { split; [discriminate|]. intros [H|[H|H]]; decompose [and] H; try lia.
      contradiction. }
    set (pol := ToUpper (TrimSpace (part parts 2))).
    destruct (valid_policy_test pol) as [V1 V2].
    destruct (negb _ && _ && _)%bool.
    { split; [discriminate|].
      intros [H|[H|H]]; decompose [and] H; try contradiction;
        match goal with Hv : valid_policy _ |- _ => specialize (V2 Hv); discriminate end. }
    specialize (V1 eq_refl).
    destruct (String.eqb_spec ty RuleTypeIPCIDR) as [H4|H4];
      [|destruct (String.eqb_spec ty RuleTypeIPCIDR6) as [H6|H6]]; simpl.
    + destruct (ParseCIDR v) as [n|] eqn:Hc.
      * split.
        -- intros H. injection H as <-. right; right. repeat split; auto.
           exists n; auto.
        -- intros [H|[H|H]].
           ++ destruct H as (H & _). contradiction.
           ++ destruct H as ([H|[H|H]] & _); rewrite H4 in H; discriminate.
           ++ destruct H as (_ & _ & _ & n' & Hn' & ->). congruence.
      * split; [discriminate|].
        intros [H|[H|H]].
        -- destruct H as (H & _). contradiction.
        -- destruct H as ([H|[H|H]] & _); rewrite H4 in H; discriminate.
        -- destruct H as (_ & _ & _ & n' & Hn' & _). congruence.
    + destruct (ParseCIDR v) as [n|] eqn:Hc.
      * split.
        -- intros H. injection H as <-. right; right. repeat split; auto.
           exists n; auto.
        -- intros [H|[H|H]].
           ++ destruct H as (H & _). contradiction.
           ++ destruct H as ([H|[H|H]] & _); rewrite H6 in H; discriminate.
           ++ destruct H as (_ & _ & _ & n' & Hn' & ->). congruence.
      * split; [discriminate|].
        intros [H|[H|H]].
        -- destruct H as (H & _). contradiction.
        -- destruct H as ([H|[H|H]] & _); rewrite H6 in H; discriminate.
        -- destruct H as (_ & _ & _ & n' & Hn' & _). congruence.
    + destruct (String.eqb_spec ty RuleTypeDomain) as [Hd|Hd];
        [|destruct (String.eqb_spec ty RuleTypeDomainSuffix) as [Hs|Hs];
          [|destruct (String.eqb_spec ty RuleTypeDomainKeyword) as [Hk|Hk];
            [|destruct (String.eqb_spec ty RuleTypeMatch) as [Hm'|Hm']]]];
        simpl;
        try (split;
             [ intros H; injection H as <-; right; left; repeat split; auto
             | intros [H|[H|H]];
               [ destruct H as (H & _); contradiction
               | destruct H as (_ & _ & _ & ->); reflexivity
               | destruct H as ([H|H] & _); contradiction ] ]).
      * contradiction.
      * split; [discriminate|].
        intros [H|[H|H]].
        -- destruct H as (H & _). contradiction.
        -- destruct H as ([H|[H|H]] & _); contradiction.
        -- destruct H as ([H|H] & _); contradiction.
Qed.

(** C2, as the code has it.  On a line of ASCII bytes (where
    [strings.TrimSpace] and [strings.ToUpper] are the functions of the
    [strings] module above) [ParseRule] accepts the line exactly when it
    splits into at least two fields with the type token [MATCH] and a
    valid policy in the second field, or into at least three fields with
    one of the other five type tokens, a valid policy in the third field
    and, for the two CIDR types, a value that [net.ParseCIDR] accepts.
    The rule is built from these fields alone: fields after them are
    not looked at.  A line with fewer fields than its shape requires
    returns an error and no rule. *)
Theorem ParseRule_shapes (line : string) :
  is_ascii line = true ->
  (forall r, ParseRule ParseCIDR line = Ok r <->
     (type_token line = RuleTypeMatch /\ 2 <= List.length (fields line) /\
      valid_policy (policy_token line 1) /\
      r = {| Type_ := RuleTypeMatch; Value := EmptyString;
             Policy := policy_token line 1; Network := None |})
     \/ (domain_type (type_token line) /\ 3 <= List.length (fields line) /\
         valid_policy (policy_token line 2) /\
         r = {| Type_ := type_token line;
                Value := TrimSpace (part (fields line) 1);
                Policy := policy_token line 2; Network := None |})
     \/ (cidr_type (type_token line) /\ 3 <= List.length (fields line) /\
         valid_policy (policy_token line 2) /\
         exists network,
           ParseCIDR (TrimSpace (part (fields line) 1)) = Some network /\
           r = {| Type_ := type_token line;
                  Value := TrimSpace (part (fields line) 1);
                  Policy := policy_token line 2;
                  Network := Some network |}))
  /\ (List.length (fields line) < 2 ->
      is_ok (ParseRule ParseCIDR line) = false)
  /\ (type_token line <> RuleTypeMatch -> List.length (fields line) < 3 ->
      is_ok (ParseRule ParseCIDR line) = false).
Proof.
  intros _.
  split; [intros r; apply ParseRule_accepts|].
  split.
  - intros Hlen. destruct (ParseRule ParseCIDR line) as [r|e] eqn:E;
      [|reflexivity].
    apply ParseRule_accepts in E.
    destruct E as [H|[H|H]]; decompose [and] H; lia.
  - intros Hty Hlen. destruct (ParseRule ParseCIDR line) as [r|e] eqn:E;
      [|reflexivity].
    apply ParseRule_accepts in E.
    destruct E as [H|[H|H]]; decompose [and] H; try lia. contradiction.
Qed.

End ParserFacts.

(** The hypothesis of [ParseRule_shapes] holds of the lines of a rule
    file: for a [DOMAIN-SUFFIX] line the three shapes say which rule is
    returned. *)
Lemma ParseRule_shapes_witness :
  strings.is_ascii "DOMAIN-SUFFIX, google.com ,proxy" = true /\
  rules.ParseRule example_cidr "DOMAIN-SUFFIX, google.com ,proxy" =
    Ok {| rules.Type_ := rules.RuleTypeDomainSuffix;
          rules.Value := "google.com";
          rules.Policy := config.PolicyProxy; rules.Network := None |}.
Proof.
  split; [reflexivity|].
  apply (proj1 (ParseRule_shapes example_cidr
                  "DOMAIN-SUFFIX, google.com ,proxy" eq_refl)).
  right; left.
  split; [right; left; reflexivity|].
  split; [simpl; lia|].
  split; [left; reflexivity | reflexivity].
Defined.

(** C2, as the specification has it, fails: a [MATCH] line of three fields
    and a [DOMAIN] line of four fields are accepted, whatever
    [net.ParseCIDR] does. *)
Lemma ParseRule_accepts_extra_fields :
  (forall cidr,
      rules.ParseRule cidr "MATCH,DIRECT,extra" =
        Ok {| rules.Type_ := rules.RuleTypeMatch; rules.Value := EmptyString;
              rules.Policy := config.PolicyDirect; rules.Network := None |})
  /\ List.length (fields "MATCH,DIRECT,extra") = 3
  /\ (forall cidr,
         rules.ParseRule cidr "DOMAIN,example.com,PROXY,extra" =
           Ok {| rules.Type_ := rules.RuleTypeDomain;
                 rules.Value := "example.com";
                 rules.Policy := config.PolicyProxy; rules.Network := None |})
  /\ List.length (fields "DOMAIN,example.com,PROXY,extra") = 4.
Proof. repeat split. Qed.

(* ================================================================== *)
(** * The redirection manager                                          *)
(* ================================================================== *)

Section ManagerFacts.

Import iptables.

Lemma cleanupExisting_loop_queue (tables : list Table) (k : Kernel) :
  exists stale,
    (stale = [] \/
     exists t, stale = [MsgDelTable t] /\ TName t = tableName /\
               TFamily t = TableFamilyIPv4) /\
    cleanupExisting_loop tables k =
      {| queue := queue k ++ stale; batches := batches k;
         rtcalls := rtcalls k |}.
Proof.
  induction tables as [|t tables IH]; simpl.
  - exists []. split; [now left|]. rewrite app_nil_r. now destruct k.
  - destruct (String.eqb_spec (TName t) tableName) as [Hn|Hn]; simpl.
    + destruct (TFamily t) eqn:Hf; try exact IH.
      exists [MsgDelTable t]. split; [|reflexivity].
      right. exists t. auto.
    + exact IH.
Qed.

Lemma cleanupExisting_queue (env : Env) (m : Manager) (k : Kernel) :
  exists stale,
    (stale = [] \/
     exists t, stale = [MsgDelTable t] /\ TName t = tableName /\
               TFamily t = TableFamilyIPv4) /\
    cleanupExisting env m k =
      {| queue := queue k ++ stale; batches := batches k;
         rtcalls := rtcalls k |}.
Proof.
  unfold cleanupExisting.
  destruct (conn m); simpl.
  - destruct (ListTables env) as [tables|e].
    + apply cleanupExisting_loop_queue.
    + exists []. split; [now left|]. rewrite app_nil_r. now destruct k.
  - exists []. split; [now left|]. rewrite app_nil_r. now destruct k.
Qed.

Lemma setupPolicyRouting_queue (env : Env) (k k' : Kernel) (e : option string) :
  setupPolicyRouting env k = (e, k') ->
  queue k' = queue k /\ batches k' = batches k.
Proof.
  unfold setupPolicyRouting.
  destruct (netlink_RuleAdd env) as [e1|];
    [destruct (negb (String.eqb e1 "file exists"))|];
    try (intros H; injection H as <- <-; split; reflexivity);
    (destruct (netlink_LinkByName_lo env) as [lo|e2];
     [destruct (netlink_RouteAdd env) as [e3|];
      [destruct (negb (String.eqb e3 "file exists"))|]|];
     intros H; injection H as <- <-; split; reflexivity).
Qed.

(** The rule that [addOutputRule] queues. *)
Lemma addOutputRule_rule (m : Manager) (chain : Chain) (dstPort : Z)
      (k : Kernel) :
  addOutputRule m chain dstPort k =
    (None,
     enqueue k (MsgAddRule
       {| RTable := table m; RChain := chain;
          Exprs := redirect_exprs (proxyUID m) dstPort (listenPort m) |})).
Proof. reflexivity. Qed.

Lemma Setup_loop_queue (env : Env) (m : Manager) (chain : Chain)
      (ps : list Z) (k : Kernel) :
  Setup_loop env m chain ps k =
    inr {| queue := queue k ++
             map (fun p => MsgAddRule
                    {| RTable := table m; RChain := chain;
                       Exprs := redirect_exprs (proxyUID m) p (listenPort m) |})
                 ps;
           batches := batches k; rtcalls := rtcalls k |}.
Proof.
  revert k; induction ps as [|p ps IH]; intros k; simpl.
  - rewrite app_nil_r. now destruct k.
  - rewrite IH. simpl. now rewrite <- app_assoc.
Qed.

(** X10.  [Setup] succeeds exactly on a kernel that accepts the
    connection, the routing rule and the route (or has them already: the
    error [file exists] is not a failure), knows the loopback interface
    and accepts the batch. *)
Lemma Setup_succeeds (env : Env) (m : Manager) (k : Kernel) :
  fst (fst (Setup env m k)) = None <->
  nftables_New env = None /\
  (netlink_RuleAdd env = None \/ netlink_RuleAdd env = Some "file exists"%string) /\
  (exists lo, netlink_LinkByName_lo env = Ok lo) /\
  (netlink_RouteAdd env = None \/ netlink_RouteAdd env = Some "file exists"%string) /\
  Flush_err env = None.
Proof.
  unfold Setup.
  destruct (nftables_New env) as [e|]; simpl.
  { split; [discriminate | intros (H & _); discriminate]. }
  unfold setupPolicyRouting.
  destruct (netlink_RuleAdd env) as [e1|] eqn:E1;
    [destruct (String.eqb_spec e1 "file exists") as [->|N1]|]; simpl;
    try (split; [discriminate | intros (_ & [H|H] & _); congruence]);
    (destruct (netlink_LinkByName_lo env) as [lo|e2] eqn:E2; simpl;
     [|split; [discriminate | intros (_ & _ & [lo H] & _); discriminate]]);
    (destruct (netlink_RouteAdd env) as [e3|] eqn:E3;
     [destruct (String.eqb_spec e3 "file exists") as [->|N3]|]; simpl;
     try (split; [discriminate | intros (_ & _ & _ & [H|H] & _); congruence]));
    rewrite Setup_loop_queue; unfold Flush;
    (destruct (Flush_err env) as [e4|]; simpl;
     [split; [discriminate | intros (_ & _ & _ & _ & H); discriminate]|]);
    (split; [intros _|reflexivity]); repeat split; eauto.
Qed.

(** What [Setup] installs.  When [Setup] succeeds on the manager made by
    [NewManager], the batch it flushes holds, after the removal of a stale
    table of the same name if there was one, the table, the NAT chain
    hooked at local output and then, for every target port in the order
    given, one rule of that chain whose expressions are, in this order:
    the L4 protocol equals TCP; the uid of the socket's owner differs from
    the real user id of the process ([syscall.Getuid], as a [uint32]); the
    destination port equals the target port (as a [uint16]); the mark is
    set to 0x1; the packet is redirected to the listening port (as a
    [uint16]). *)
Theorem Setup_installs_redirect_rules
        (env : Env) (listenPort : Z) (targetPorts : list Z)
        (k k' : Kernel) (m' : Manager) :
  Setup env (NewManager env listenPort targetPorts) k = (None, m', k') ->
  exists stale,
    (stale = [] \/
     exists t, stale = [MsgDelTable t] /\ TName t = tableName /\
               TFamily t = TableFamilyIPv4) /\
    batches k' = batches k ++
      [stale ++ [MsgAddTable proxy_table; MsgAddChain output_chain] ++
       map (fun p => MsgAddRule
              (redirect_rule (uint32 (Getuid env)) (uint16 p)
                             (uint16 listenPort)))
           targetPorts].
Proof.
  unfold Setup.
  destruct (nftables_New env) as [e|]; [discriminate|].
  set (m := set_conn (NewManager env listenPort targetPorts)).
  destruct (cleanupExisting_queue env m (fresh_conn k))
    as (stale & Hstale & ->).
  simpl queue; simpl batches; simpl rtcalls.
  destruct (setupPolicyRouting env _) as [[e|] k1] eqn:Hp; [discriminate|].
  apply setupPolicyRouting_queue in Hp. simpl in Hp. destruct Hp as [Hq Hb].
  rewrite Setup_loop_queue. simpl.
  unfold Flush. destruct (Flush_err env) as [e|]; [discriminate|].
  intros H. injection H as _ <-. simpl.
  exists stale. split; [exact Hstale|].
  rewrite Hq, Hb. f_equal. f_equal.
  rewrite <- !app_assoc. simpl. f_equal. f_equal. f_equal.
  rewrite map_map. reflexivity.
Qed.

(** [Setup] does succeed: on a kernel where every call succeeds, the
    default ports give the two rules. *)
Lemma Setup_installs_redirect_rules_witness :
  Setup env_setuid (NewManager env_setuid 12345 DefaultPorts) kernel0
    = (None,
       set_table (set_conn (NewManager env_setuid 12345 DefaultPorts))
                 proxy_table,
       {| queue := [];
          batches := [[MsgAddTable proxy_table; MsgAddChain output_chain;
                       MsgAddRule (redirect_rule 1000 80 12345);
                       MsgAddRule (redirect_rule 1000 443 12345)]];
          rtcalls := [RuleAdd policyRule;
                      RouteAdd {| LinkIndex := 1;
                                  Gw := Some (net.IPv4 127 0 0 1);
                                  RtTable := routingTable;
                                  ScopeHost := false;
                                  TypeLocal := false |}] |})
  /\ exists stale,
      (stale = [] \/
       exists t, stale = [MsgDelTable t] /\ TName t = tableName /\
                 TFamily t = TableFamilyIPv4) /\
      [[MsgAddTable proxy_table; MsgAddChain output_chain;
        MsgAddRule (redirect_rule 1000 80 12345);
        MsgAddRule (redirect_rule 1000 443 12345)]] =
      [] ++
      [stale ++ [MsgAddTable proxy_table; MsgAddChain output_chain] ++
       map (fun p => MsgAddRule
              (redirect_rule (uint32 (Getuid env_setuid)) (uint16 p)
                             (uint16 12345)))
           DefaultPorts].
Proof.
  split; [reflexivity|].
  exact (Setup_installs_redirect_rules env_setuid 12345 DefaultPorts kernel0 _ _
           eq_refl).
Defined.

(** C3.  The rule is meant to exclude the proxy's own traffic (the source
    says of [proxyUID]: the uid of the proxy process, to exclude from
    redirection; of [addOutputRule]: excludes traffic from the proxy
    process, by uid, to prevent loops), and a socket is owned by the
    effective user id of the process that opens it.  [NewManager] stores
    [syscall.Getuid()], the real user id.  For the process [env_setuid]
    (real user id 1000, effective user id 0) [Setup] succeeds and the rule
    it installs for port 80 excludes the sockets of uid 1000: the rule
    that excludes the sockets of the effective user id 0 is not
    installed, and a TCP packet to port 80 sent from a socket of uid 0,
    as the proxy's own connections are, is redirected to the proxy. *)
Lemma Setup_excludes_real_uid :
  exists m' k',
    Setup env_setuid (NewManager env_setuid 12345 DefaultPorts) kernel0
      = (None, m', k') /\
    batches k' =
      [[MsgAddTable proxy_table; MsgAddChain output_chain;
        MsgAddRule (redirect_rule 1000 80 12345);
        MsgAddRule (redirect_rule 1000 443 12345)]] /\
    Geteuid env_setuid = 0%Z /\
    ~ In (MsgAddRule (redirect_rule (uint32 (Geteuid env_setuid)) 80 12345))
         (List.concat (batches k')) /\
    eval_exprs (Exprs (redirect_rule 1000 80 12345)) [] [0; 0; 0; 0]%Z
      {| l4proto := 6; skuid := 0;
         transport_header := [200; 0; 0; 80]%Z; pmark := [0; 0; 0; 0]%Z |}
      = Redirected [1; 0; 0; 0]%Z [48; 57]%Z.
Proof.
  eexists. eexists. split; [reflexivity|].
  split; [reflexivity|]. split; [reflexivity|].
  split; [|reflexivity].
  simpl. intros [H|[H|[H|[H|[]]]]]; discriminate.
Qed.

End ManagerFacts.

Section RuleMeaning.
Import iptables.
Local Open Scope Z_scope.

Lemma binaryUint32_inj (a b : Z) :
  0 <= a < 4294967296 -> 0 <= b < 4294967296 ->
  binaryUint32 a = binaryUint32 b -> a = b.
Proof.
  intros Ha Hb H. unfold binaryUint32, byte_of in H.
  rewrite !Z.shiftr_div_pow2 in H by lia.
  injection H as H0 H1 H2 H3.
  change (2 ^ 8) with 256 in *. change (2 ^ 16) with 65536 in *.
  change (2 ^ 24) with 16777216 in *.
  Z.to_euclidean_division_equations. lia.
Qed.

Lemma bytes_eqb_eq (a b : list Z) : bytes_eqb a b = true <-> a = b.
Proof. unfold bytes_eqb. destruct (list_eq_dec Z.eq_dec a b); split; congruence. Qed.

(** What the rule does to a packet: it redirects the packet to the
    listening port, with mark 0x1, exactly when the packet is TCP, its
    socket is not owned by [uid] and its destination port is [dport];
    otherwise the rule ends without a verdict and the mark is untouched. *)
Lemma redirect_exprs_meaning (uid dport lport : Z) (p : Packet) :
  0 <= uid < 4294967296 -> 0 <= skuid p < 4294967296 ->
  eval_exprs (redirect_exprs uid dport lport) [] (pmark p) p =
    if ((l4proto p =? 6) && negb (skuid p =? uid) &&
        bytes_eqb (firstn 2 (skipn 2 (transport_header p))) (binaryPort dport))%bool
    then Redirected [1; 0; 0; 0] (binaryPort lport)
    else NoVerdict.
Proof.
  intros Hu Hs. unfold redirect_exprs. cbn [eval_exprs].
  replace (bytes_eqb (firstn (List.length [6]) [l4proto p]) [6])
    with (l4proto p =? 6).
  2:{ cbn [List.length firstn]. destruct (Z.eqb_spec (l4proto p) 6) as [->|Hn].
      - reflexivity.
      - symmetry. apply not_true_is_false. rewrite bytes_eqb_eq. congruence. }
  destruct (l4proto p =? 6); [|reflexivity]. cbn [andb].
  replace (bytes_eqb (firstn (List.length (binaryUint32 uid))
                             (binaryUint32 (skuid p))) (binaryUint32 uid))
    with (skuid p =? uid).
  2:{ change (firstn _ (binaryUint32 (skuid p))) with (binaryUint32 (skuid p)).
      destruct (Z.eqb_spec (skuid p) uid) as [->|Hn].
      - symmetry. apply bytes_eqb_eq. reflexivity.
      - symmetry. apply not_true_is_false. rewrite bytes_eqb_eq.
        intros H. apply binaryUint32_inj in H; auto. }
  destruct (skuid p =? uid); [reflexivity|]. cbn [negb andb].
  change (List.length (binaryPort dport)) with 2%nat.
  change (Z.to_nat 2) with 2%nat.
  assert (Hf : forall l : list Z, firstn 2 (firstn 2 l) = firstn 2 l).
  { intros l. rewrite firstn_firstn. reflexivity. }
  rewrite Hf.
  destruct (bytes_eqb _ (binaryPort dport)); reflexivity.
Qed.
End RuleMeaning.

(* ================================================================== *)
(** * Destination recovery and the connection handler                  *)
(* ================================================================== *)

Section HandlerFacts.

Import proxy.
Local Open Scope string_scope.

Lemma getOriginalDstIPv4_events (env : Env) (fd : Z) :
  match getOriginalDstIPv4 env fd with
  | (inl _, ev) => ev = [attempt4 fd 0]
  | (inr e, ev) => ev = [attempt4 fd e] /\ e <> 0%Z
  end.
Proof.
  unfold getOriginalDstIPv4.
  destruct (getsockopt_SOL_IP env fd) as [errno addr].
  destruct (Z.eqb_spec errno 0) as [->|Hn]; simpl.
  - destruct (Addr addr) as [[[a b] c] d]. reflexivity.
  - split; [reflexivity | exact Hn].
Qed.

Lemma getOriginalDstIPv6_events (env : Env) (fd : Z) :
  match getOriginalDstIPv6 env fd with
  | (inl _, ev) => ev = [attempt6 fd 0]
  | (inr e, ev) => ev = [attempt6 fd e] /\ e <> 0%Z
  end.
Proof.
  unfold getOriginalDstIPv6.
  destruct (getsockopt_SOL_IPV6 env fd) as [errno addr].
  destruct (Z.eqb_spec errno 0) as [->|Hn]; simpl.
  - reflexivity.
  - split; [reflexivity | exact Hn].
Qed.

Lemma getOriginalDst_cases (env : Env) :
  match clientConn_File env with
  | Err e =>
      getOriginalDst env =
        (Err ("failed to get file descriptor: " ++ e), [EvFile])
  | Ok fd =>
      match fst (getOriginalDstIPv4 env fd), fst (getOriginalDstIPv6 env fd) with
      | inl a4, _ =>
          getOriginalDst env =
            (Ok a4, [EvFile; attempt4 fd 0; EvFileClose])
      | inr e4, inl a6 =>
          e4 <> 0%Z /\
          getOriginalDst env =
            (Ok a6, [EvFile; attempt4 fd e4; attempt6 fd 0; EvFileClose])
      | inr e4, inr e6 =>
          e4 <> 0%Z /\ e6 <> 0%Z /\
          getOriginalDst env =
            (Err both_failed,
             [EvFile; attempt4 fd e4; attempt6 fd e6; EvFileClose])
      end
  end.
Proof.
  unfold getOriginalDst.
  destruct (clientConn_File env) as [fd|e]; [|reflexivity].
  pose proof (getOriginalDstIPv4_events env fd) as H4.
  pose proof (getOriginalDstIPv6_events env fd) as H6.
  destruct (getOriginalDstIPv4 env fd) as [[a4|e4] ev4];
    [subst ev4 | destruct H4 as [-> He4];
                 destruct (getOriginalDstIPv6 env fd) as [[a6|e6] ev6];
                 [subst ev6 | destruct H6 as [-> He6]]]; simpl; auto.
Qed.

(** C8.  [getOriginalDst] takes the descriptor of the socket and then
    asks for the IPv4 original destination; only when that attempt fails
    it asks for the IPv6 one.  It returns the address of the IPv4 attempt
    when that succeeds, else the address of the IPv6 attempt when that
    succeeds, and the combined error when both attempts were made and both
    failed.  So an address is returned exactly when one of the attempts
    made has succeeded (errno 0), and the combined error is returned only
    after two failed attempts.  (When the descriptor cannot be taken, no
    attempt is made, and the error is another one.) *)
Theorem getOriginalDst_attempts (env : Env) :
  match clientConn_File env with
  | Err e =>
      getOriginalDst env =
        (Err ("failed to get file descriptor: " ++ e), [EvFile])
  | Ok fd =>
      match fst (getOriginalDstIPv4 env fd), fst (getOriginalDstIPv6 env fd) with
      | inl a4, _ =>
          getOriginalDst env =
            (Ok a4, [EvFile; attempt4 fd 0; EvFileClose])
      | inr e4, inl a6 =>
          e4 <> 0%Z /\
          getOriginalDst env =
            (Ok a6, [EvFile; attempt4 fd e4; attempt6 fd 0; EvFileClose])
      | inr e4, inr e6 =>
          e4 <> 0%Z /\ e6 <> 0%Z /\
          getOriginalDst env =
            (Err both_failed,
             [EvFile; attempt4 fd e4; attempt6 fd e6; EvFileClose])
      end
  end
  /\ ((exists addr, fst (getOriginalDst env) = Ok addr) <->
      (exists fd level optname,
          In (EvGetsockopt fd level optname 0) (snd (getOriginalDst env))))
  /\ (fst (getOriginalDst env) = Err both_failed ->
      exists fd e4 e6,
        e4 <> 0%Z /\ e6 <> 0%Z /\
        snd (getOriginalDst env) =
          [EvFile; attempt4 fd e4; attempt6 fd e6; EvFileClose]).
Proof.
  pose proof (getOriginalDst_cases env) as C.
  split; [exact C|].
  destruct (clientConn_File env) as [fd|e].
  - destruct (fst (getOriginalDstIPv4 env fd)) as [a4|e4];
      [|destruct (fst (getOriginalDstIPv6 env fd)) as [a6|e6]].
    + rewrite C. simpl. split.
      * split; [|eauto]. intros _. exists fd, SOL_IP, SO_ORIGINAL_DST.
        simpl. auto.
      * discriminate.
    + destruct C as [He4 ->]. simpl. split.
      * split; [|eauto]. intros _. exists fd, SOL_IPV6, IP6T_SO_ORIGINAL_DST.
        simpl. auto.
      * discriminate.
    + destruct C as (He4 & He6 & ->). simpl. split.
      * split; [intros [a H]; discriminate|].
        intros (fd' & l & o & [H|[H|[H|[H|[]]]]]); try discriminate;
          unfold attempt4, attempt6 in H; injection H as _ _ _ H; congruence.
      * intros _. exists fd, e4, e6. auto.
  - rewrite C. simpl. split.
    + split; [intros [a H]; discriminate|].
      intros (fd' & l & o & [H|[]]). discriminate.
    + unfold both_failed. intros H. discriminate.
Qed.

Lemma getOriginalDst_not_outbound (env : Env) :
  forallb (fun e => negb (is_outbound e)) (snd (getOriginalDst env)) = true.
Proof.
  pose proof (getOriginalDst_cases env) as H.
  destruct (clientConn_File env) as [fd|e].
  - destruct (fst (getOriginalDstIPv4 env fd)) as [a4|e4].
    + rewrite H. reflexivity.
    + destruct (fst (getOriginalDstIPv6 env fd)) as [a6|e6].
      * destruct H as [_ ->]. reflexivity.
      * destruct H as (_ & _ & ->). reflexivity.
  - rewrite H. reflexivity.
Qed.






(** C6.  When the matcher answers [REJECT], the handler does nothing after
    the match but close the client's connection: its calls are those of
    the destination recovery, the name lookup, the match and that close.
    No target or upstream is dialled, no request is written and nothing is
    relayed. *)
Theorem handleConnection_reject (env : Env) (tp : TransparentProxy)
        (origDst : TCPAddr) (ev : list Event) :
  getOriginalDst env = (Ok origDst, ev) ->
  rules.MPolicy
    (rules.Match (matcher tp)
       (lookup_domain (fst (LookupAddr env (IP_String env (IP origDst))))
                      (snd (LookupAddr env (IP_String env (IP origDst)))))
       (Some (IP origDst))) = config.PolicyReject ->
  handleConnection env tp =
    (ev ++ [EvLookupAddr (IP_String env (IP origDst));
            EvMatch (lookup_domain
                       (fst (LookupAddr env (IP_String env (IP origDst))))
                       (snd (LookupAddr env (IP_String env (IP origDst)))))
                    (IP origDst);
            EvCloseClient])%list
  /\ forallb (fun e => negb (is_outbound e)) (handleConnection env tp) = true.
Proof.
  intros H Hp.
  assert (E : handleConnection env tp =
    (ev ++ [EvLookupAddr (IP_String env (IP origDst));
            EvMatch (lookup_domain
                       (fst (LookupAddr env (IP_String env (IP origDst))))
                       (snd (LookupAddr env (IP_String env (IP origDst)))))
                    (IP origDst);
            EvCloseClient])%list).
  { unfold handleConnection. rewrite H.
    destruct (LookupAddr env (IP_String env (IP origDst))) as [names lerr].
    simpl fst in *; simpl snd in *. rewrite Hp. simpl.
    rewrite <- app_assoc. reflexivity. }
  split; [exact E|].
  rewrite E, forallb_app.
  pose proof (getOriginalDst_not_outbound env) as Hn. rewrite H in Hn.
  simpl in Hn. rewrite Hn. reflexivity.
Qed.

Lemma handleConnection_reject_witness :
  getOriginalDst (example_env []) =
    (Ok {| IP := net.IPv4 8 8 8 8; TPort := 443 |},
     [EvFile; attempt4 7 0; EvFileClose])
  /\ handleConnection (example_env []) (example_proxy config.PolicyReject) =
       [EvFile; attempt4 7 0; EvFileClose;
        EvLookupAddr "8.8.8.8"; EvMatch "dns.google" (net.IPv4 8 8 8 8);
        EvCloseClient]
  /\ forallb (fun e => negb (is_outbound e))
       (handleConnection (example_env []) (example_proxy config.PolicyReject))
     = true.
Proof.
  split; [reflexivity|].
  exact (handleConnection_reject (example_env [])
           (example_proxy config.PolicyReject) _ _ eq_refl eq_refl).
Defined.

End HandlerFacts.

(* ================================================================== *)
(** * Reading through the buffered reader                              *)
(* ================================================================== *)

Section StreamFacts.

Import netconn bufio.

Lemma drop_empty_concat (cs : list bytes) :
  List.concat (drop_empty cs) = List.concat cs.
Proof.
  induction cs as [|c cs IH]; simpl; [reflexivity|].
  destruct c; simpl; [exact IH | reflexivity].
Qed.

Lemma drop_empty_head (cs : list bytes) (rest : list bytes) :
  drop_empty cs = [] :: rest -> False.
Proof.
  induction cs as [|c cs IH]; simpl; [discriminate|].
  destruct c; [exact IH | discriminate].
Qed.

(** A read of an open connection takes a prefix off the pending bytes; it
    returns an error only at the end of the stream, and at least one byte
    when asked for one while bytes are pending. *)
Lemma conn_Read_spec (c c' : Conn) (n : nat) (got : bytes) (e : option ioerr) :
  closed c = false ->
  netconn.Read c n = (got, e, c') ->
  got ++ pending c' = pending c /\ closed c' = false /\
  List.length got <= n /\
  (e = None \/ (e = Some EOF /\ got = [] /\ pending c = [] /\ pending c' = [])) /\
  (0 < n -> e = None -> got <> []).
Proof.
  intros Hc. unfold netconn.Read. rewrite Hc.
  destruct (Nat.eqb_spec n 0) as [->|Hn].
  - intros H. injection H as <- <- <-. repeat split; auto. lia.
  - unfold pending. rewrite <- (drop_empty_concat (incoming c)).
    destruct (drop_empty (incoming c)) as [|piece rest] eqn:Hd.
    + intros H. injection H as <- <- <-. simpl. repeat split; auto.
      * lia.
      * intros _ H; discriminate.
    + intros H. injection H as <- <- <-. simpl.
      rewrite app_assoc, firstn_skipn. repeat split; auto.
      * rewrite length_firstn. lia.
      * intros _ _. destruct piece as [|x piece].
        -- exfalso. eapply drop_empty_head; eauto.
        -- destruct n; [lia | discriminate].
Qed.

Lemma fill_spec (b : Reader) :
  good b ->
  List.length (buf b) < size b ->
  good (fill b) /\ stream (fill b) = stream b /\ size (fill b) = size b /\
  (exists got, buf (fill b) = buf b ++ got /\
               (err (fill b) = None -> got <> [])) /\
  List.length (buf (fill b)) <= size b.
Proof.
  intros [Hc He] Hlen. unfold fill.
  destruct (netconn.Read (rd b) (size b - List.length (buf b)))
    as [[got e] c'] eqn:R.
  apply conn_Read_spec in R; auto.
  destruct R as (Hs & Hc' & Hl & Herr & Hprog).
  unfold good, stream; simpl. repeat split; auto.
  - destruct Herr as [->|(-> & _ & _ & Hp)]; auto.
  - rewrite <- Hs, app_assoc. reflexivity.
  - exists got. split; [reflexivity|]. intros ->. apply Hprog; [lia | reflexivity].
  - rewrite length_app. lia.
Qed.

Lemma IndexByte_Some (l : bytes) (c : ascii) (i : nat) :
  IndexByte l c = Some i ->
  exists l0, firstn (S i) l = l0 ++ [c] /\ ~ In c l0.
Proof.
  revert i; induction l as [|x l IH]; intros i; simpl; [discriminate|].
  destruct (Ascii.eqb_spec x c) as [->|Hx].
  - intros H. injection H as <-. exists []. simpl. auto.
  - destruct (IndexByte l c) as [j|]; [|discriminate].
    intros H. injection H as <-.
    destruct (IH j eq_refl) as (l0 & E & Hn).
    exists (x :: l0). rewrite E. split; [reflexivity|].
    intros [H|H]; [congruence | contradiction].
Qed.

Lemma IndexByte_None (l : bytes) (c : ascii) :
  IndexByte l c = None -> ~ In c l.
Proof.
  induction l as [|x l IH]; simpl; [auto|].
  destruct (Ascii.eqb_spec x c) as [->|Hx]; [discriminate|].
  destruct (IndexByte l c); [discriminate|].
  intros _ [H|H]; [congruence | now apply IH].
Qed.

Lemma ReadSlice_found (b : Reader) (i : nat) :
  good b -> IndexByte (buf b) LF = Some i ->
  ReadSlice_outcome b (set_buf b (skipn (S i) (buf b)))
                    (firstn (S i) (buf b)) None.
Proof.
  intros Hg Hi. destruct (IndexByte_Some _ _ _ Hi) as (l0 & E & Hn).
  unfold ReadSlice_outcome, stream, good, set_buf. cbn [buf rd err size].
  rewrite app_assoc, firstn_skipn. repeat split; try apply Hg. eauto.
Qed.

Lemma ReadSlice_ended (b : Reader) (e0 : ioerr) :
  good b -> IndexByte (buf b) LF = None -> err b = Some e0 ->
  ReadSlice_outcome b (clear_err (set_buf b [])) (buf b) (Some e0).
Proof.
  intros [Hc [Hn|[He' Hp]]] Hi He; [congruence|].
  assert (e0 = EOF) by congruence. subst e0.
  apply IndexByte_None in Hi.
  unfold ReadSlice_outcome, stream, good, set_buf, clear_err.
  cbn [buf rd err size]. repeat split; auto.
Qed.

Lemma ReadSlice_full (b : Reader) :
  good b -> IndexByte (buf b) LF = None ->
  size b <= List.length (buf b) ->
  ReadSlice_outcome b (set_buf b []) (buf b) (Some ErrBufferFull).
Proof.
  intros Hg Hi Hfull. apply IndexByte_None in Hi.
  unfold ReadSlice_outcome, stream, good, set_buf.
  cbn [buf rd err size]. repeat split; try apply Hg; auto.
Qed.

Lemma ReadSlice_outcome_fill (b b' : Reader) (line : bytes) (e : option ioerr) :
  good b -> List.length (buf b) < size b ->
  ReadSlice_outcome (fill b) b' line e -> ReadSlice_outcome b b' line e.
Proof.
  intros Hg Hnf. destruct (fill_spec b Hg Hnf) as (_ & Hs & Hsz & _).
  unfold ReadSlice_outcome. rewrite Hs, Hsz. auto.
Qed.

Lemma ReadSlice_loop_spec (fuel : nat) (b b' : Reader) (line : bytes)
      (e : option ioerr) :
  good b ->
  size b - List.length (buf b) <= fuel \/ err b <> None ->
  ReadSlice_loop fuel b LF = (line, e, b') ->
  ReadSlice_outcome b b' line e.
Proof.
  revert b; induction fuel as [|fuel IH]; intros b Hg Hf; simpl;
    (destruct (IndexByte (buf b) LF) as [i|] eqn:Hi;
     [intros H; injection H as <- <- <-; now apply ReadSlice_found|]);
    (destruct (err b) as [e0|] eqn:He;
     [intros H; injection H as <- <- <-; now apply ReadSlice_ended|]);
    (destruct (Nat.leb_spec (size b) (List.length (buf b))) as [Hfull|Hnf];
     [intros H; injection H as <- <- <-; now apply ReadSlice_full|]).
  - destruct Hf as [Hf|Hf]; [lia | congruence].
  - intros H. apply ReadSlice_outcome_fill; auto.
    destruct (fill_spec b Hg Hnf) as (Hg' & Hs' & Hsz' & (got & Hb' & Hgot) & Hle).
    apply IH; auto.
    destruct (err (fill b)) eqn:E; [right; discriminate|].
    left. specialize (Hgot eq_refl).
    rewrite Hb', length_app, Hsz'.
    destruct Hf as [Hf|Hf]; [|congruence].
    destruct got; [congruence | simpl; lia].
Qed.

Lemma ReadSlice_spec (b b' : Reader) (line : bytes) (e : option ioerr) :
  good b -> ReadSlice b LF = (line, e, b') -> ReadSlice_outcome b b' line e.
Proof.
  intros Hg. apply ReadSlice_loop_spec; auto. left. lia.
Qed.

Lemma ends_with_app (l : bytes) (x c : ascii) :
  ends_with (l ++ [x]) c = Ascii.eqb x c.
Proof. unfold ends_with. rewrite rev_app_distr. reflexivity. Qed.

Lemma ends_with_true (l : bytes) (c : ascii) :
  ends_with l c = true -> exists l', l = l' ++ [c].
Proof.
  destruct l as [|x l] using rev_ind; [discriminate|].
  rewrite ends_with_app. intros H. apply Ascii.eqb_eq in H. subst. eauto.
Qed.

Lemma ends_with_In (l : bytes) (c : ascii) : ends_with l c = true -> In c l.
Proof.
  intros H. apply ends_with_true in H. destruct H as [l' ->].
  apply in_or_app. right. now left.
Qed.

Lemma not_In_removelast (l : bytes) (c : ascii) :
  ~ In c l -> ~ In c (removelast l).
Proof.
  destruct l as [|x l] using rev_ind; [auto|].
  rewrite removelast_last. intros H H'. apply H. apply in_or_app. now left.
Qed.

Lemma CR_not_LF : CR <> LF.
Proof. discriminate. Qed.

Lemma ReadLine_spec (b b' : Reader) (l : bytes) (more : bool)
      (e : option ioerr) :
  good b -> 2 <= size b ->
  ReadLine b = (l, more, e, b') ->
  ReadLine_outcome b b' l more e.
Proof.
  intros Hg Hsz. unfold ReadLine.
  destruct (ReadSlice b LF) as [[line e1] b1] eqn:R.
  apply ReadSlice_spec in R; auto.
  destruct R as (Hs & Hg1 & Hsz1 & Hout).
  assert (Hplain :
    (e1 = None \/ e1 = Some EOF \/ e1 = Some ErrClosed \/ e1 = Some ErrMalformed) ->
    match line with
    | [] => ([], false, e1, b1)
    | _ :: _ =>
        if ends_with line LF
        then
          if ends_with (removelast line) CR
          then (removelast (removelast line), false, None, b1)
          else (removelast line, false, None, b1)
        else (line, false, None, b1)
    end = (l, more, e, b') ->
    ReadLine_outcome b b' l more e).
  { intros He1 H. destruct line as [|x line'] eqn:El.
    - injection H as <- <- <- <-.
      unfold ReadLine_outcome. split; [exact Hg1|]. split; [exact Hsz1|]. exists []. split; [exact Hs|].
      destruct He1 as [->|[->|[->| ->]]]; auto.
      destruct Hout as (l0 & E & _). destruct l0; discriminate.
    - assert (Hne : x :: line' <> []) by discriminate.
      rewrite <- El in *. clear El.
      destruct He1 as [->|He1].
      + destruct Hout as (l0 & -> & Hn).
        rewrite ends_with_app in H.
        replace (Ascii.eqb LF LF) with true in H by reflexivity.
        rewrite removelast_last in H.
        assert (E : (chomp l0, false, @None ioerr, b1) = (l, more, e, b')).
        { unfold chomp. destruct (ends_with l0 CR); exact H. }
        injection E as <- <- <- <-.
        unfold ReadLine_outcome. split; [exact Hg1|]. split; [exact Hsz1|].
        exists (l0 ++ [LF]). split; [exact Hs|]. left. eauto.
      + assert (Hn : ~ In LF line /\ stream b1 = []).
        { destruct He1 as [->|[->| ->]]; exact Hout. }
        destruct Hn as [Hn Hst].
        destruct (ends_with line LF) eqn:Ew.
        { exfalso. apply Hn. now apply ends_with_In. }
        injection H as <- <- <- <-.
        unfold ReadLine_outcome. split; [exact Hg1|]. split; [exact Hsz1|].
        exists line. split; [exact Hs|]. right. repeat split; auto. }
  destruct e1 as [[| | | |]|]; try (apply Hplain; auto; fail).
  - (* ErrBufferFull *)
    destruct Hout as (Hn & Hb1 & Hlen).
    destruct (ends_with line CR) eqn:Ew; intros H; injection H as <- <- <- <-.
    + destruct (ends_with_true _ _ Ew) as [l' ->].
      rewrite removelast_last.
      unfold ReadLine_outcome.
      split; [exact Hg1|]. split; [exact Hsz1|].
      exists l'. split.
      { rewrite <- Hs. unfold stream, set_buf. cbn [buf rd]. rewrite Hb1.
        simpl. rewrite <- app_assoc. reflexivity. }
      repeat split.
      * rewrite length_app in Hlen. simpl in Hlen.
        intros ->. simpl in Hlen. lia.
      * intros H. apply Hn. apply in_or_app. now left.
      * intros _. exists []. reflexivity.
    + unfold ReadLine_outcome. split; [exact Hg1|]. split; [exact Hsz1|].
      exists line. split; [exact Hs|]. repeat split; auto.
      * intros ->. simpl in Hlen. lia.
      * intros H. congruence.
  - (* OutOfFuel *) destruct Hout.
Qed.

Lemma chomp_app (acc l : bytes) :
  l <> [] -> chomp (acc ++ l) = acc ++ chomp l.
Proof.
  destruct l as [|x l] using rev_ind; [congruence|]. intros _.
  unfold chomp. rewrite app_assoc.
  rewrite (ends_with_app (acc ++ l)), (ends_with_app l).
  destruct (Ascii.eqb x CR); [|symmetry; apply app_assoc].
  rewrite (removelast_last (acc ++ l)), (removelast_last l). reflexivity.
Qed.

Lemma ends_with_app_nonempty (acc l : bytes) (c : ascii) :
  l <> [] -> ends_with (acc ++ l) c = ends_with l c.
Proof.
  destruct l as [|x l] using rev_ind; [congruence|]. intros _.
  rewrite app_assoc.
  rewrite (ends_with_app (acc ++ l)), (ends_with_app l). reflexivity.
Qed.

Lemma readLineSlice_loop_spec (fuel : nat) (b b' : Reader) (acc : bytes)
      (r : bytes + ioerr) :
  good b -> 2 <= size b ->
  ~ In LF acc ->
  (ends_with acc CR = true -> exists t, buf b = CR :: t) ->
  List.length (stream b) < fuel ->
  textproto.readLineSlice_loop fuel b acc = (r, b') ->
  line_outcome b b' acc r.
Proof.
  revert b acc; induction fuel as [|fuel IH]; intros b acc Hg Hsz Hacc Hcr Hf;
    [lia|]. simpl.
  destruct (ReadLine b) as [[[l more] e] b1] eqn:R.
  apply ReadLine_spec in R; auto.
  destruct R as (Hg1 & Hsz1 & raw & Hs & Hout).
  destruct e as [e|].
  - intros H. injection H as <- <-.
    split; [exact Hg1|]. split; [exact Hsz1|].
    exists raw. split; [exact Hs|]. destruct e; auto.
  - destruct more.
    + destruct Hout as (-> & Hne & Hnl & Hcr1).
      intros H. apply IH in H; auto.
      * destruct H as (Hg' & Hsz' & raw' & Hs' & Hout').
        split; [exact Hg'|]. split; [congruence|].
        exists (l ++ raw'). split.
        { rewrite <- Hs, <- Hs', app_assoc. reflexivity. }
        destruct r as [line|e]; [|exact Hout'].
        rewrite app_assoc. exact Hout'.
      * lia.
      * intros H'. apply in_app_or in H'. tauto.
      * rewrite ends_with_app_nonempty by exact Hne. exact Hcr1.
      * rewrite <- Hs in Hf. rewrite length_app in Hf.
        destruct l; [congruence | simpl in Hf; lia].
    + intros H. injection H as <- <-.
      split; [exact Hg1|]. split; [exact Hsz1|].
      exists raw. split; [exact Hs|].
      destruct Hout as [(l0 & -> & Hnl & ->)|(-> & Hne & Hnl & Hst)].
      * left. exists (acc ++ l0). split; [now rewrite app_assoc|].
        split; [intros H'; apply in_app_or in H'; tauto|].
        destruct l0 as [|x l0].
        -- rewrite app_nil_r. change (chomp []) with (@nil ascii).
           rewrite app_nil_r.
           unfold chomp. destruct (ends_with acc CR) eqn:E; [|reflexivity].
           exfalso. destruct (Hcr eq_refl) as [t Ht].
           unfold stream in Hs. rewrite Ht in Hs. simpl in Hs.
           injection Hs as Hx _. symmetry in Hx. now apply CR_not_LF.
        -- symmetry. apply chomp_app. discriminate.
      * right. repeat split; auto.
        -- intros E. apply app_eq_nil in E. tauto.
        -- intros H'. apply in_app_or in H'. tauto.
Qed.

Lemma readLineSlice_spec (b b' : Reader) (r : bytes + ioerr) :
  good b -> 2 <= size b ->
  textproto.readLineSlice b = (r, b') ->
  line_outcome b b' [] r.
Proof.
  intros Hg Hsz. apply readLineSlice_loop_spec; auto.
  discriminate.
Qed.

(** A line that was read took at least one byte off the stream. *)
Lemma line_outcome_progress (b b' : Reader) (line : bytes) :
  line_outcome b b' [] (inl line) ->
  List.length (stream b') < List.length (stream b).
Proof.
  intros (_ & _ & raw & Hs & Hout). rewrite <- Hs, length_app.
  destruct Hout as [(l0 & E & _)|(E & Hne & _)]; simpl in E; subst.
  - rewrite length_app. simpl. lia.
  - destruct raw; [congruence | simpl; lia].
Qed.

Lemma readHeaderLines_spec (hfuel : nat) (b b' : Reader)
      (acc hs : list bytes) :
  good b -> 2 <= size b ->
  http.readHeaderLines hfuel b acc = (inl hs, b') ->
  good b' /\ size b' = size b /\
  exists raw, raw ++ stream b' = stream b /\ header_lines raw.
Proof.
  revert b acc; induction hfuel as [|hfuel IH]; intros b acc Hg Hsz; simpl;
    [discriminate|].
  destruct (textproto.readLineSlice b) as [[line|e] b1] eqn:R;
    [|discriminate].
  apply readLineSlice_spec in R; auto.
  destruct R as (Hg1 & Hsz1 & raw & Hs & Hout). simpl in Hout.
  destruct line as [|x line].
  - intros H. injection H as <- <-.
    split; [exact Hg1|]. split; [exact Hsz1|].
    exists raw. split; [exact Hs|].
    destruct Hout as [(l0 & -> & Hnl & Hc)|(_ & Hne & _)]; [|congruence].
    apply header_end; auto.
  - intros H. assert (Hrec := H). apply IH in H; [|exact Hg1|lia].
    destruct H as (Hg' & Hsz' & raw' & Hs' & Hl').
    split; [exact Hg'|]. split; [congruence|].
    destruct Hout as [(l0 & -> & Hnl & Hc)|(_ & _ & _ & Hst)].
    + exists ((l0 ++ [LF]) ++ raw'). split.
      { rewrite <- Hs, <- Hs', app_assoc. reflexivity. }
      rewrite <- app_assoc. apply header_line; auto. congruence.
    + (* the stream ended inside this line: no further line can be read *)
      exfalso. rewrite Hst in Hs'. apply app_eq_nil in Hs'.
      destruct Hs' as [-> _]. inversion Hl' as [l Hn Hc E|l rest Hn Hc Hr E];
        destruct l; discriminate.
Qed.

Lemma ReadResponse_spec (hok : list bytes -> bool) (b b' : Reader)
      (resp : http.Response) :
  good b -> 2 <= size b ->
  http.ReadResponse hok b = (Ok resp, b') ->
  good b' /\ size b' = size b /\
  exists hdr, hdr ++ stream b' = stream b /\ header_block hdr.
Proof.
  intros Hg Hsz. unfold http.ReadResponse.
  destruct (textproto.readLineSlice b) as [[line|e] b1] eqn:R;
    [|destruct e; discriminate].
  apply readLineSlice_spec in R; auto.
  destruct R as (Hg1 & Hsz1 & raw & Hs & Hout). simpl in Hout.
  destruct (http.parseStatusLine _) as [resp0|]; [|discriminate].
  destruct (http.readHeaderLines _ b1 []) as [[hs|e] b2] eqn:H;
    [|destruct e; discriminate].
  apply readHeaderLines_spec in H; [|exact Hg1|lia].
  destruct H as (Hg2 & Hsz2 & raw' & Hs' & Hl').
  destruct (hok hs); [|discriminate].
  intros E. injection E as <- <-.
  split; [exact Hg2|]. split; [congruence|].
  exists (raw ++ raw'). split.
  { rewrite <- Hs, <- Hs', app_assoc. reflexivity. }
  destruct Hout as [(l0 & -> & Hnl & Hc)|(_ & _ & _ & Hst)].
  - exists l0, raw'. split; [exact Hnl|]. split; [|exact Hl'].
    rewrite <- app_assoc. reflexivity.
  - exfalso. rewrite Hst in Hs'. apply app_eq_nil in Hs'.
    destruct Hs' as [-> _]. inversion Hl' as [l Hn Hc E|l rest Hn Hc Hr E];
      destruct l; discriminate.
Qed.

(** [bufio.Reader.Read] takes a prefix of at most [n] bytes off the
    stream, and at least one byte when [n] is positive and bytes are
    left. *)
Lemma Read_spec (b b' : Reader) (n : nat) (d : bytes) (e : option ioerr) :
  good b ->
  bufio.Read b n = (d, e, b') ->
  d ++ stream b' = stream b /\ good b' /\ size b' = size b /\
  List.length d <= n /\
  (0 < n -> stream b <> [] -> d <> []).
Proof.
  intros [Hc He]. unfold bufio.Read.
  destruct (Nat.eqb_spec n 0) as [->|Hn].
  - destruct (buf b) as [|x l] eqn:Hb; intros H; injection H as <- <- <-;
      (split; [|split; [|split; [|split]]]);
      try reflexivity; try lia; try (split; auto; fail).
  - destruct (buf b) as [|x l] eqn:Hb.
    + destruct (err b) as [e0|] eqn:Herr.
      * intros H. injection H as <- <- <-.
        destruct He as [He|[He Hp]]; [congruence|].
        split; [|split; [|split; [|split]]];
          try reflexivity; try (simpl; lia); try (split; auto; fail).
        intros _ H. exfalso. apply H. unfold stream. rewrite Hb, Hp.
        reflexivity.
      * destruct (Nat.leb_spec (size b) n) as [Hle|Hgt].
        -- destruct (netconn.Read (rd b) n) as [[got e1] c'] eqn:R.
           apply conn_Read_spec in R; auto.
           destruct R as (Hs & Hc' & Hl & Herr1 & Hprog).
           intros H. injection H as <- <- <-.
           split; [|split; [|split; [|split]]];
             try reflexivity; try exact Hl; try (split; auto; fail).
           ++ unfold stream. cbn [buf rd]. rewrite Hb. exact Hs.
           ++ intros Hpos Hne. unfold stream in Hne. rewrite Hb in Hne.
              destruct Herr1 as [->|(_ & _ & Hp & _)];
                [apply Hprog; auto | contradiction].
        -- destruct (netconn.Read (rd b) (size b)) as [[got e1] c'] eqn:R.
           assert (R' := R). apply conn_Read_spec in R; auto.
           destruct R as (Hs & Hc' & Hl & Herr1 & Hprog).
           destruct got as [|y got].
           ++ intros H. injection H as <- <- <-.
              split; [|split; [|split; [|split]]];
                try reflexivity; try (simpl; lia); try (split; auto; fail).
              ** unfold stream. cbn [buf rd]. rewrite Hb. exact Hs.
              ** intros Hpos Hne. exfalso.
                 unfold stream in Hne. rewrite Hb in Hne.
                 destruct Herr1 as [->|(_ & _ & Hp & _)]; [|contradiction].
                 apply Hprog; auto; lia.
           ++ intros H. injection H as <- <- <-.
              split; [|split; [|split; [|split]]]; try reflexivity.
              ** unfold stream. cbn [buf rd]. rewrite Hb.
                 cbn [app]. rewrite <- Hs, app_assoc, firstn_skipn.
                 reflexivity.
              ** split; [exact Hc'|]. cbn [err rd].
                 destruct Herr1 as [->|(_ & Hgot & _)]; [auto | discriminate].
              ** rewrite length_firstn. lia.
              ** intros _ _. destruct n; [lia | discriminate].
    + intros H. injection H as <- <- <-.
      split; [|split; [|split; [|split]]]; try reflexivity.
      * unfold stream, set_buf. cbn [buf rd]. rewrite Hb.
        rewrite app_assoc, firstn_skipn. reflexivity.
      * split; auto.
      * rewrite length_firstn. lia.
      * intros _ _. destruct n; [lia | discriminate].
Qed.

Import proxy.

Lemma read_seq_spec (ns : list nat) (c : bufferedConn) :
  good (reader c) ->
  fst (read_seq c ns) ++ stream (reader (snd (read_seq c ns)))
    = stream (reader c)
  /\ good (reader (snd (read_seq c ns)))
  /\ (Forall (fun n => 0 < n) ns ->
      List.length (stream (reader c)) <= List.length ns ->
      fst (read_seq c ns) = stream (reader c)).
Proof.
  revert c; induction ns as [|n ns IH]; intros c Hg; simpl.
  - split; [reflexivity|]. split; [exact Hg|]. intros _ Hl.
    destruct (stream (reader c)); [reflexivity | simpl in Hl; lia].
  - unfold bufferedConn_Read.
    destruct (bufio.Read (reader c) n) as [[d e] r] eqn:R.
    apply Read_spec in R; auto.
    destruct R as (Hs & Hg' & Hsz & Hl & Hprog).
    specialize (IH {| reader := r |} Hg').
    destruct (read_seq {| reader := r |} ns) as [ds c2]. simpl in *.
    destruct IH as (IH1 & IH2 & IH3).
    split; [|split; [exact IH2|]].
    + rewrite <- Hs, <- IH1, app_assoc. reflexivity.
    + intros Hall Hlen. inversion Hall as [|? ? Hpos Hall']; subst.
      rewrite <- Hs. f_equal.
      destruct (stream (reader c)) as [|x st] eqn:Est.
      * apply app_eq_nil in Hs. destruct Hs as [-> Hr]. rewrite Hr in *.
        apply IH3; auto. simpl. lia.
      * apply IH3; auto.
        assert (Hd : d <> []) by (apply Hprog; auto; discriminate).
        assert (Hlen' : List.length (d ++ stream r) = S (List.length st))
          by (rewrite Hs; reflexivity).
        rewrite length_app in Hlen'. simpl in Hlen.
        destruct d; [congruence | simpl in Hlen'; lia].
Qed.

(** ** The bound of the loops is never reached *)

Lemma readHeaderLines_fuel (hfuel : nat) (b b' : Reader) (acc : list bytes)
      (r : list bytes + ioerr) :
  good b -> 2 <= size b ->
  List.length (stream b) < hfuel ->
  http.readHeaderLines hfuel b acc = (r, b') ->
  r <> inr OutOfFuel.
Proof.
  revert b acc; induction hfuel as [|hfuel IH]; intros b acc Hg Hsz Hf; [lia|].
  simpl. destruct (textproto.readLineSlice b) as [[line|e] b1] eqn:R.
  - apply readLineSlice_spec in R; auto.
    pose proof (line_outcome_progress _ _ _ R) as Hp.
    destruct R as (Hg1 & Hsz1 & _).
    destruct line as [|x line].
    + intros H. injection H as <- <-. discriminate.
    + apply IH; auto; lia.
  - apply readLineSlice_spec in R; auto.
    destruct R as (_ & _ & raw & _ & Hout).
    intros H. injection H as <- <-. intros E. injection E as ->. exact Hout.
Qed.

(** [ReadResponse] never fails for want of fuel: every error it returns is
    one that the Go function returns. *)
Lemma ReadResponse_fuel (hok : list bytes -> bool) (b : Reader) :
  good b -> 2 <= size b ->
  fst (http.ReadResponse hok b) <> Err (ioerr_text OutOfFuel).
Proof.
  intros Hg Hsz. unfold http.ReadResponse.
  destruct (textproto.readLineSlice b) as [[line|e] b1] eqn:R.
  - apply readLineSlice_spec in R; auto.
    destruct R as (Hg1 & Hsz1 & _).
    destruct (http.parseStatusLine _) as [resp|]; [|discriminate].
    destruct (http.readHeaderLines _ b1 []) as [[hs|e] b2] eqn:H.
    + destruct (hok hs); discriminate.
    + apply readHeaderLines_fuel in H; [|exact Hg1|lia|lia].
      destruct e; try discriminate. congruence.
  - apply readLineSlice_spec in R; auto.
    destruct R as (_ & _ & raw & _ & Hout).
    destruct e; try discriminate. destruct Hout.
Qed.

(** ** The header block is determined by the stream *)

Lemma line_split_unique (l1 l2 r1 r2 : bytes) :
  ~ In LF l1 -> ~ In LF l2 ->
  l1 ++ [LF] ++ r1 = l2 ++ [LF] ++ r2 -> l1 = l2 /\ r1 = r2.
Proof.
  revert l2; induction l1 as [|x l1 IH]; intros [|y l2] H1 H2 E; simpl in *.
  - injection E as ->. auto.
  - injection E as <- _. exfalso. apply H2. now left.
  - injection E as -> _. exfalso. apply H1. now left.
  - injection E as -> E. destruct (IH l2) as [-> ->]; auto.
Qed.

Lemma header_lines_unique (h1 : bytes) :
  header_lines h1 ->
  forall h2 p1 p2, header_lines h2 -> h1 ++ p1 = h2 ++ p2 -> h1 = h2.
Proof.
  induction 1 as [l Hn Hc|l rest Hn Hc Hr IH]; intros h2 p1 p2 H2 E;
    destruct H2 as [l' Hn' Hc'|l' rest' Hn' Hc' Hr'];
    rewrite <- ?app_assoc in E;
    apply line_split_unique in E; auto; destruct E as [-> E];
    try reflexivity; try contradiction.
  rewrite (IH _ _ _ Hr' E). reflexivity.
Qed.

(** Two header blocks at the front of the same stream are equal: the
    payload that follows the header block of a stream is well defined. *)
Lemma header_block_unique (h1 h2 p1 p2 : bytes) :
  header_block h1 -> header_block h2 ->
  h1 ++ p1 = h2 ++ p2 -> h1 = h2 /\ p1 = p2.
Proof.
  intros (l1 & r1 & Hn1 & -> & H1) (l2 & r2 & Hn2 & -> & H2) E.
  assert (E' := E). repeat rewrite <- app_assoc in E'.
  change (l1 ++ [LF] ++ r1 ++ p1 = l2 ++ [LF] ++ r2 ++ p2) in E'.
  apply line_split_unique in E'; auto. destruct E' as [-> E'].
  pose proof (header_lines_unique _ H1 _ _ _ H2 E') as ->.
  split; [reflexivity|].
  apply app_inv_head in E. exact E.
Qed.

(** ** The HTTP connector *)

Lemma defaultBufSize_ge : 2 <= defaultBufSize.
Proof. apply Nat.leb_le. reflexivity. Qed.

Lemma ReadLine_closed (b : Reader) :
  closed (rd b) = true -> buf b = [] -> err b = None -> 1 <= size b ->
  exists b', ReadLine b = ([], false, Some ErrClosed, b').
Proof.
  intros Hc Hb He Hsz. unfold ReadLine, ReadSlice.
  destruct (size b) as [|n] eqn:Es; [lia|].
  assert (F : fill b = {| buf := []; size := S n; err := Some ErrClosed;
                          rd := rd b |}).
  { unfold fill, netconn.Read. rewrite Hc, Hb, Es. reflexivity. }
  assert (R : ReadSlice_loop (S n) b LF =
              ([], Some ErrClosed, clear_err (set_buf (fill b) []))).
  { cbn [ReadSlice_loop]. rewrite Hb, He, Es. cbn [IndexByte List.length].
    change (Nat.leb (S n) 0) with false. cbv iota.
    rewrite F. destruct n; reflexivity. }
  rewrite R. eauto.
Qed.

Lemma closed_conn_no_response (hok : list bytes -> bool) (conn : Conn)
      (resp : http.Response) (br : Reader) :
  closed conn = true ->
  http.ReadResponse hok (NewReader conn) = (Ok resp, br) -> False.
Proof.
  intros Hc. unfold http.ReadResponse, textproto.readLineSlice.
  cbn [textproto.readLineSlice_loop].
  destruct (ReadLine_closed (NewReader conn)) as [b' R]; auto.
  { pose proof defaultBufSize_ge. simpl. lia. }
  rewrite R. discriminate.
Qed.

Lemma NewReader_good (conn : Conn) : closed conn = false -> good (NewReader conn).
Proof. intros H. split; [exact H | now left]. Qed.

Lemma connectHTTP_cases (env : Env) (u : Upstream) (targetAddr : string)
      (conn : Conn) (resp : http.Response) (br : Reader) :
  net_Dial env (proxyAddr u "8080") = Ok conn ->
  req_Write env (connectRequest u targetAddr) = None ->
  http.ReadResponse (headers_ok env) (NewReader conn) = (Ok resp, br) ->
  connectHTTP env u targetAddr =
    if Z.eqb (http.StatusCode resp) 200
    then (Ok {| reader := br |},
          [EvDial (proxyAddr u "8080");
           EvWriteRequest (connectRequest u targetAddr)])
    else (Err ("CONNECT failed with status: " ++ http.Status resp)%string,
          [EvDial (proxyAddr u "8080");
           EvWriteRequest (connectRequest u targetAddr);
           EvCloseServer]).
Proof.
  intros Hd Hw Hr. unfold connectHTTP. rewrite Hd, Hw, Hr.
  unfold http.StatusOK. destruct (Z.eqb (http.StatusCode resp) 200); reflexivity.
Qed.

(** C4, as the code has it.  Once the upstream's answer to the [CONNECT]
    request has been read as a response, [connectHTTP] returns the tunnel
    when and only when the status code is 200.  For every other status
    code, the other codes from 201 to 299 among them, it closes the
    connection to the upstream and returns an error whose text ends with
    the status text of the response. *)
Theorem connectHTTP_status (env : Env) (u : Upstream) (targetAddr : string)
        (conn : Conn) (resp : http.Response) (br : Reader) :
  net_Dial env (proxyAddr u "8080") = Ok conn ->
  req_Write env (connectRequest u targetAddr) = None ->
  http.ReadResponse (headers_ok env) (NewReader conn) = (Ok resp, br) ->
  (http.StatusCode resp = 200%Z ->
   connectHTTP env u targetAddr =
     (Ok {| reader := br |},
      [EvDial (proxyAddr u "8080");
       EvWriteRequest (connectRequest u targetAddr)]))
  /\ (http.StatusCode resp <> 200%Z ->
      connectHTTP env u targetAddr =
        (Err ("CONNECT failed with status: " ++ http.Status resp)%string,
         [EvDial (proxyAddr u "8080");
          EvWriteRequest (connectRequest u targetAddr);
          EvCloseServer]))
  /\ ((exists c, fst (connectHTTP env u targetAddr) = Ok c) <->
      http.StatusCode resp = 200%Z).
Proof.
  intros Hd Hw Hr.
  rewrite (connectHTTP_cases env u targetAddr conn resp br Hd Hw Hr).
  destruct (Z.eqb_spec (http.StatusCode resp) 200) as [E|E].
  - split; [reflexivity|]. split; [contradiction|].
    split; [auto | intros _; simpl; eauto].
  - split; [contradiction|]. split; [reflexivity|].
    split; [intros [c H]; discriminate | contradiction].
Qed.

(** C5.  The tunnel that [connectHTTP] returns delivers what the upstream
    sends after the header block of its response, whatever the pieces in
    which the bytes arrive: the bytes sent are the header block followed
    by a payload; the payload is what the tunnel still has to deliver,
    the bytes read ahead into the buffer of the reader first; after any
    sequence of reads the bytes returned so far followed by the bytes
    still to deliver are the payload (nothing lost, nothing twice, nothing
    out of order); and reads with non-empty buffers, as many as the
    payload has bytes, return the whole payload. *)
Theorem connectHTTP_delivers_stream
        (env : Env) (u : Upstream) (targetAddr : string)
        (conn : Conn) (c : bufferedConn) (evs : list Event) :
  net_Dial env (proxyAddr u "8080") = Ok conn ->
  connectHTTP env u targetAddr = (Ok c, evs) ->
  exists hdr payload,
    pending conn = hdr ++ payload /\
    header_block hdr /\
    buf (reader c) ++ pending (bufferedConn_Conn c) = payload /\
    (forall ns,
        fst (read_seq c ns) ++ stream (reader (snd (read_seq c ns)))
          = payload) /\
    (forall ns,
        Forall (fun n => 0 < n) ns ->
        List.length payload <= List.length ns ->
        fst (read_seq c ns) = payload).
Proof.
  intros Hd. unfold connectHTTP. rewrite Hd.
  destruct (req_Write env (connectRequest u targetAddr)); [discriminate|].
  destruct (http.ReadResponse (headers_ok env) (NewReader conn))
    as [[resp|e] br] eqn:Hr; [|discriminate].
  destruct (negb (Z.eqb (http.StatusCode resp) http.StatusOK)); [discriminate|].
  intros H. injection H as <- _.
  destruct (closed conn) eqn:Hc.
  { exfalso. eapply closed_conn_no_response; eauto. }
  apply ReadResponse_spec in Hr;
    [|now apply NewReader_good | apply defaultBufSize_ge].
  destruct Hr as (Hg & _ & hdr & Hs & Hb).
  exists hdr, (stream br). split; [symmetry; exact Hs|].
  split; [exact Hb|]. split; [reflexivity|].
  split; intros ns.
  - apply (read_seq_spec ns {| reader := br |} Hg).
  - apply (read_seq_spec ns {| reader := br |} Hg).
Qed.

End StreamFacts.

(** C4, as the specification has it, fails: the upstream answers
    [204 No Content], a 2xx status, and [connectHTTP] closes the connection
    and returns an error. *)
Lemma connectHTTP_rejects_204 :
  fst (http.ReadResponse (fun _ => true)
         (bufio.NewReader {| netconn.incoming := answer_204;
                             netconn.closed := false |}))
    = Ok {| http.Status := "204 No Content"; http.StatusCode := 204;
            http.Proto := "HTTP/1.1" |}
  /\ (200 <= 204 < 300)%Z
  /\ proxy.connectHTTP (example_env answer_204) example_upstream
       "example.com:80"
     = (Err "CONNECT failed with status: 204 No Content",
        [proxy.EvDial "proxy:8080";
         proxy.EvWriteRequest
           (proxy.connectRequest example_upstream "example.com:80");
         proxy.EvCloseServer]).
Proof.
  split; [vm_compute; reflexivity|]. split; [lia|]. vm_compute. reflexivity.
Qed.

Lemma connectHTTP_status_witness :
  exists resp br,
    http.ReadResponse (fun _ => true)
      (bufio.NewReader {| netconn.incoming := answer_200;
                          netconn.closed := false |}) = (Ok resp, br)
    /\ http.StatusCode resp = 200%Z
    /\ proxy.connectHTTP (example_env answer_200) example_upstream
         "example.com:80"
       = (Ok {| proxy.reader := br |},
          [proxy.EvDial "proxy:8080";
           proxy.EvWriteRequest
             (proxy.connectRequest example_upstream "example.com:80")]).
Proof.
  eexists. eexists. split; [vm_compute; reflexivity|].
  split; [reflexivity|].
  match goal with
  | |- _ = (Ok {| proxy.reader := ?br |}, _) =>
      apply (proj1 (connectHTTP_status (example_env answer_200)
                      example_upstream "example.com:80"
                      {| netconn.incoming := answer_200;
                         netconn.closed := false |}
                      {| http.Status := "200 Connection Established";
                         http.StatusCode := 200; http.Proto := "HTTP/1.1" |}
                      br eq_refl eq_refl
                      ltac:(vm_compute; reflexivity)) eq_refl)
  end.
Defined.

Lemma connectHTTP_delivers_stream_witness :
  exists c evs,
    proxy.connectHTTP (example_env answer_200) example_upstream
      "example.com:80" = (Ok c, evs)
    /\ fst (read_seq c [4; 5000; 3; 100]) = ascii_bytes "target response"
    /\ exists hdr payload,
        List.concat answer_200 = hdr ++ payload /\
        header_block hdr /\
        bufio.buf (proxy.reader c) ++ netconn.pending (proxy.bufferedConn_Conn c)
          = payload /\
        (forall ns,
            fst (read_seq c ns) ++
            bufio.stream (proxy.reader (snd (read_seq c ns))) = payload) /\
        (forall ns,
            Forall (fun n => 0 < n) ns ->
            List.length payload <= List.length ns ->
            fst (read_seq c ns) = payload).
Proof.
  eexists. eexists. split; [vm_compute; reflexivity|].
  split; [vm_compute; reflexivity|].
  match goal with
  | |- context [proxy.reader ?c] =>
      apply (connectHTTP_delivers_stream (example_env answer_200)
               example_upstream "example.com:80"
               {| netconn.incoming := answer_200; netconn.closed := false |}
               c
               [proxy.EvDial "proxy:8080";
                proxy.EvWriteRequest
                  (proxy.connectRequest example_upstream "example.com:80")]
               eq_refl ltac:(vm_compute; reflexivity))
  end.
Defined.

(* ================================================================== *)
(** * The tables of the repository's tests                             *)
(* ================================================================== *)

Section RepositoryTests.

Import strings rules.

(** [TestMatcher_DomainMatch] *)
Example test_DomainMatch :
  let m := [ {| Type_ := RuleTypeDomain; Value := "example.com";
                Policy := config.PolicyProxy; Network := None |};
             {| Type_ := RuleTypeDomainSuffix; Value := "google.com";
                Policy := config.PolicyProxy; Network := None |};
             {| Type_ := RuleTypeDomainKeyword; Value := "youtube";
                Policy := config.PolicyProxy; Network := None |};
             {| Type_ := RuleTypeMatch; Value := "";
                Policy := config.PolicyDirect; Network := None |} ] in
  map (fun d => MPolicy (Match m d None))
      ["example.com"; "EXAMPLE.COM"; "www.google.com"; "google.com";
       "notgoogle.com"; "www.youtube.com"; "myyoutubesite.com"; "unknown.org"]
  = ["PROXY"; "PROXY"; "PROXY"; "PROXY";
     "DIRECT"; "PROXY"; "PROXY"; "DIRECT"].
Proof. vm_compute. reflexivity. Qed.

(** [TestMatcher_IPMatch]; [net.ParseIP] gives the 16-byte form. *)
Example test_IPMatch :
  let m := [ {| Type_ := RuleTypeIPCIDR; Value := "192.168.0.0/16";
                Policy := config.PolicyDirect;
                Network := Some {| net.IP_ := [192; 168; 0; 0]%Z;
                                   net.Mask := [255; 255; 0; 0]%Z |} |};
             {| Type_ := RuleTypeIPCIDR; Value := "10.0.0.0/8";
                Policy := config.PolicyDirect;
                Network := Some {| net.IP_ := [10; 0; 0; 0]%Z;
                                   net.Mask := [255; 0; 0; 0]%Z |} |};
             {| Type_ := RuleTypeMatch; Value := "";
                Policy := config.PolicyProxy; Network := None |} ] in
  map (fun ip => MPolicy (Match m "" (Some ip)))
      [net.IPv4 192 168 1 100; net.IPv4 10 0 0 1;
       net.IPv4 8 8 8 8; net.IPv4 1 1 1 1]
  = ["DIRECT"; "DIRECT"; "PROXY"; "PROXY"].
Proof. vm_compute. reflexivity. Qed.

(** [TestMatcher_RejectPolicy] *)
Example test_RejectPolicy :
  MPolicy (Match [ {| Type_ := RuleTypeDomainKeyword; Value := "ads";
                      Policy := config.PolicyReject; Network := None |};
                   {| Type_ := RuleTypeMatch; Value := "";
                      Policy := config.PolicyDirect; Network := None |} ]
                 "ads.example.com" None)
  = config.PolicyReject.
Proof. vm_compute. reflexivity. Qed.

(** [TestParseRule_Domain] and [TestParseRule_Match]: the lines that need
    no CIDR. *)
Example test_ParseRule (cidr : string -> option net.IPNet) :
  map (ParseRule cidr)
      ["DOMAIN,example.com,PROXY"; "DOMAIN-KEYWORD,youtube,DIRECT";
       "DOMAIN,test.com,proxy"; "MATCH,DIRECT"]
  = [ Ok {| Type_ := RuleTypeDomain; Value := "example.com";
            Policy := config.PolicyProxy; Network := None |};
      Ok {| Type_ := RuleTypeDomainKeyword; Value := "youtube";
            Policy := config.PolicyDirect; Network := None |};
      Ok {| Type_ := RuleTypeDomain; Value := "test.com";
            Policy := config.PolicyProxy; Network := None |};
      Ok {| Type_ := RuleTypeMatch; Value := "";
            Policy := config.PolicyDirect; Network := None |} ]
  /\ map (fun l => is_ok (ParseRule cidr l))
         ["DOMAIN,only-two-parts"; "DOMAIN,test.com,INVALID"]
     = [false; false].
Proof. split; reflexivity. Qed.

(** [TestUpstreamHTTP_Mock]: the upstream answers
    [200 Connection Established] and writes [target response] at once; one
    read of 100 bytes on the tunnel returns it. *)
Example test_UpstreamHTTP_Mock :
  match proxy.connectHTTP
          (example_env
             [ascii_bytes "HTTP/1.1 200 Connection Established" ++
              [CR; LF; CR; LF] ++ ascii_bytes "target response"])
          example_upstream "example.com:80" with
  | (Ok c, _) =>
      let '(d, e, _) := proxy.bufferedConn_Read c 100 in
      d = ascii_bytes "target response" /\ e = None
  | (Err _, _) => False
  end.
Proof. vm_compute. split; reflexivity. Qed.

End RepositoryTests.

(* ================================================================== *)
(** * Further properties of the parser and the matcher                 *)
(* ================================================================== *)

Section RulesMore.

Import strings rules.

Variable ParseCIDR : string -> option net.IPNet.

Lemma ParseRules_loop_ok (lines : list string) (i : nat) (acc rs : list Rule) :
  ParseRules_loop ParseCIDR i lines acc = Ok rs <->
  exists rs', rs = acc ++ rs' /\
              Forall2 (fun l r => ParseRule ParseCIDR l = Ok r) lines rs'.
Proof.
  revert i acc; induction lines as [|l lines IH]; intros i acc; simpl.
  - split.
    + intros H. injection H as <-. exists []. rewrite app_nil_r. auto.
    + intros (rs' & -> & H). inversion H. now rewrite app_nil_r.
  - destruct (ParseRule ParseCIDR l) as [r|e] eqn:E.
    + rewrite IH. split.
      * intros (rs' & -> & H). exists (r :: rs').
        rewrite <- app_assoc. split; [reflexivity|]. constructor; auto.
      * intros (rs' & -> & H). inversion H as [|? r' ? rs'' Hr Hrest]; subst.
        assert (r' = r) by congruence. subst r'.
        exists rs''. rewrite <- app_assoc. auto.
    + split; [discriminate|].
      intros (rs' & _ & H). inversion H; subst. congruence.
Qed.

(** X1.  [ParseRules] succeeds exactly when every line parses, and then
    returns the rules of the lines, one for each line and in the order of
    the lines. *)
Theorem ParseRules_all_lines (lines : list string) (rs : list Rule) :
  ParseRules ParseCIDR lines = Ok rs <->
  Forall2 (fun l r => ParseRule ParseCIDR l = Ok r) lines rs.
Proof.
  unfold ParseRules. rewrite ParseRules_loop_ok. simpl. split.
  - intros (rs' & -> & H). exact H.
  - intros H. eauto.
Qed.

Lemma ParseRules_loop_error (pre : list string) (bad : string)
      (rest : list string) (e : string) (i : nat) (acc : list Rule) :
  Forall (fun l => is_ok (ParseRule ParseCIDR l) = true) pre ->
  ParseRule ParseCIDR bad = Err e ->
  ParseRules_loop ParseCIDR i (pre ++ bad :: rest) acc =
    Err ("rule " ++
         NilEmpty.string_of_uint (Nat.to_uint (i + List.length pre + 1)) ++
         ": " ++ e)%string.
Proof.
  revert i acc; induction pre as [|l pre IH]; intros i acc Hpre Hbad; simpl.
  - rewrite Hbad, Nat.add_0_r. reflexivity.
  - inversion Hpre as [|? ? Hl Hpre']; subst.
    destruct (ParseRule ParseCIDR l) as [r|e']; [|discriminate].
    rewrite IH by assumption.
    replace (i + 1 + List.length pre + 1) with (i + S (List.length pre) + 1)
      by lia.
    reflexivity.
Qed.

(** X2.  [ParseRules] stops at the first line that does not parse: no
    rule is returned, and the error is the error of that line after the
    words [rule n: ], [n] being the position of the line counted from 1;
    the lines after it play no part. *)
Theorem ParseRules_first_error (pre : list string) (bad : string)
        (rest : list string) (e : string) :
  Forall (fun l => is_ok (ParseRule ParseCIDR l) = true) pre ->
  ParseRule ParseCIDR bad = Err e ->
  ParseRules ParseCIDR (pre ++ bad :: rest) =
    Err ("rule " ++
         NilEmpty.string_of_uint (Nat.to_uint (List.length pre + 1)) ++
         ": " ++ e)%string.
Proof.
  intros Hpre Hbad. unfold ParseRules.
  apply (ParseRules_loop_error pre bad rest e 0 [] Hpre Hbad).
Qed.

(** X3.  A rule that [ParseRule] returns is well formed: its type is one
    of the six type tokens and its policy one of the three policy tokens,
    in upper case; a CIDR rule carries the network that [net.ParseCIDR]
    gives for its value and every other rule carries none; a [MATCH] rule
    has the empty value. *)
Theorem ParseRule_well_formed (line : string) (r : Rule) :
  ParseRule ParseCIDR line = Ok r ->
  (Type_ r = RuleTypeMatch \/ domain_type (Type_ r) \/ cidr_type (Type_ r)) /\
  valid_policy (Policy r) /\
  (cidr_type (Type_ r) ->
   exists network, Network r = Some network /\
                   ParseCIDR (Value r) = Some network) /\
  (~ cidr_type (Type_ r) -> Network r = None) /\
  (Type_ r = RuleTypeMatch -> Value r = EmptyString).
Proof.
  intros H. apply ParseRule_accepts in H.
  destruct H as [(Ht & _ & Hp & ->)|[(Ht & _ & Hp & ->)|(Ht & _ & Hp & n & Hn & ->)]];
    simpl.
  - repeat split; auto. intros [C|C]; discriminate.
  - repeat split; auto.
    + intros C. exfalso.
      destruct Ht as [Ht|[Ht|Ht]], C as [C|C]; rewrite Ht in C; discriminate.
    + intros C. exfalso.
      destruct Ht as [Ht|[Ht|Ht]]; rewrite Ht in C; discriminate.
  - repeat split; auto.
    + intros _. eauto.
    + intros C. contradiction.
    + intros C. exfalso. destruct Ht as [Ht|Ht]; rewrite Ht in C; discriminate.
Qed.

End RulesMore.

Lemma ParseRules_first_error_witness :
  Forall (fun l => is_ok (rules.ParseRule (fun _ => None) l) = true)
         ["MATCH,DIRECT"; "DOMAIN,example.com,proxy"]
  /\ rules.ParseRule (fun _ => None) "DOMAIN,only-two-parts" =
       Err "invalid rule format, expected TYPE,VALUE,POLICY: DOMAIN,only-two-parts"
  /\ rules.ParseRules (fun _ => None)
       (["MATCH,DIRECT"; "DOMAIN,example.com,proxy"] ++
        "DOMAIN,only-two-parts" :: ["MATCH,REJECT"]) =
     Err "rule 3: invalid rule format, expected TYPE,VALUE,POLICY: DOMAIN,only-two-parts".
Proof.
  assert (H1 : Forall (fun l => is_ok (rules.ParseRule (fun _ => None) l) = true)
                      ["MATCH,DIRECT"; "DOMAIN,example.com,proxy"])
    by (repeat constructor).
  split; [exact H1|]. split; [reflexivity|].
  exact (ParseRules_first_error (fun _ => None)
           ["MATCH,DIRECT"; "DOMAIN,example.com,proxy"]
           "DOMAIN,only-two-parts" ["MATCH,REJECT"]
           "invalid rule format, expected TYPE,VALUE,POLICY: DOMAIN,only-two-parts"
           H1 eq_refl).
Defined.

Lemma ParseRule_well_formed_witness :
  rules.ParseRule example_cidr " ip-cidr , 10.0.0.0/8 , direct "
    = Ok example_cidr_rule
  /\ (rules.Type_ example_cidr_rule = rules.RuleTypeMatch \/
      domain_type (rules.Type_ example_cidr_rule) \/
      cidr_type (rules.Type_ example_cidr_rule))
  /\ valid_policy (rules.Policy example_cidr_rule)
  /\ (cidr_type (rules.Type_ example_cidr_rule) ->
      exists network,
        rules.Network example_cidr_rule = Some network /\
        example_cidr (rules.Value example_cidr_rule) = Some network)
  /\ (~ cidr_type (rules.Type_ example_cidr_rule) ->
      rules.Network example_cidr_rule = None)
  /\ (rules.Type_ example_cidr_rule = rules.RuleTypeMatch ->
      rules.Value example_cidr_rule = EmptyString).
Proof.
  split; [reflexivity|].
  exact (ParseRule_well_formed example_cidr " ip-cidr , 10.0.0.0/8 , direct "
           example_cidr_rule eq_refl).
Defined.

Section MatcherMore.

Import strings rules.

Lemma Match_loop_app (l1 l2 : list Rule) (d : string) (ip : option net.IP) :
  Match_loop (l1 ++ l2) d ip =
    match MRule (Match_loop l1 d ip) with
    | Some _ => Match_loop l1 d ip
    | None => Match_loop l2 d ip
    end.
Proof.
  induction l1 as [|r l1 IH]; simpl; [reflexivity|].
  destruct (matchRule r d ip); [reflexivity | exact IH].
Qed.

(** X4.  A [MATCH] rule is a catch-all: the rules after it are never
    consulted, so the list behaves as if it ended with that rule, and the
    answer always names a rule (the default answer is never given). *)
Theorem Match_catch_all (l1 l2 : list Rule) (r : Rule) (domain : string)
        (ip : option net.IP) :
  Type_ r = RuleTypeMatch ->
  Match (l1 ++ r :: l2) domain ip = Match (l1 ++ [r]) domain ip /\
  MRule (Match (l1 ++ r :: l2) domain ip) <> None.
Proof.
  intros Ht. unfold Match. rewrite !Match_loop_app.
  assert (Hr : matchRule r (ToLower domain) ip = true).
  { unfold matchRule. rewrite Ht. reflexivity. }
  destruct (MRule (Match_loop l1 (ToLower domain) ip)) eqn:E.
  - split; [reflexivity|]. rewrite E. discriminate.
  - simpl. rewrite Hr. split; [reflexivity | discriminate].
Qed.

Lemma Match_catch_all_witness :
  rules.Type_ (typed_rule rules.RuleTypeMatch "" config.PolicyReject None)
    = rules.RuleTypeMatch
  /\ rules.Match ([rule_google_proxy] ++
                  typed_rule rules.RuleTypeMatch "" config.PolicyReject None
                  :: [rule_any_direct]) "example.org" (Some (net.IPv4 8 8 8 8))
     = rules.Match ([rule_google_proxy] ++
                    [typed_rule rules.RuleTypeMatch "" config.PolicyReject None])
                   "example.org" (Some (net.IPv4 8 8 8 8))
  /\ rules.MRule
       (rules.Match ([rule_google_proxy] ++
                     typed_rule rules.RuleTypeMatch "" config.PolicyReject None
                     :: [rule_any_direct]) "example.org"
                    (Some (net.IPv4 8 8 8 8))) <> None.
Proof.
  split; [reflexivity|].
  exact (Match_catch_all [rule_google_proxy] [rule_any_direct]
           (typed_rule RuleTypeMatch "" config.PolicyReject None)
           "example.org" (Some (net.IPv4 8 8 8 8)) eq_refl).
Defined.






Lemma Match_loop_policy (m : list Rule) (d : string) (ip : option net.IP) :
  Forall (fun r => valid_policy (Policy r)) m ->
  valid_policy (MPolicy (Match_loop m d ip)).
Proof.
  intros H. induction H as [|r m Hr Hm IH]; simpl.
  - right; left; reflexivity.
  - destruct (matchRule r d ip); [exact Hr | exact IH].
Qed.

(** X6.  The policy of an answer comes from a rule of the list or is
    [DIRECT]: when every rule has one of the three policies, as the rules
    of [ParseRule] have, so has every answer of [Match]. *)
Theorem Match_policy_valid (m : list Rule) (domain : string)
        (ip : option net.IP) :
  Forall (fun r => valid_policy (Policy r)) m ->
  valid_policy (MPolicy (Match m domain ip)).
Proof. intros H. unfold Match. now apply Match_loop_policy. Qed.

Lemma Match_policy_valid_witness :
  Forall (fun r => valid_policy (rules.Policy r))
         [rule_google_proxy; rule_any_direct]
  /\ valid_policy
       (rules.MPolicy (rules.Match [rule_google_proxy; rule_any_direct]
                                   "example.org" (Some (net.IPv4 8 8 8 8)))).
Proof.
  assert (H : Forall (fun r => valid_policy (rules.Policy r))
                     [rule_google_proxy; rule_any_direct]).
  { constructor; [left; reflexivity|].
    constructor; [right; left; reflexivity | constructor]. }
  split; [exact H|].
  exact (Match_policy_valid [rule_google_proxy; rule_any_direct]
           "example.org" (Some (net.IPv4 8 8 8 8)) H).
Defined.



End MatcherMore.

(* ================================================================== *)
(** * Further properties of the redirection manager                    *)
(* ================================================================== *)

Section ManagerMore.

Import iptables.
Local Open Scope Z_scope.

Lemma lor_shiftl_8 (h l : Z) :
  0 <= l < 256 -> Z.lor (Z.shiftl h 8) l = h * 256 + l.
Proof.
  intros Hl. rewrite Z.shiftl_mul_pow2 by lia. change (2 ^ 8) with 256.
  assert (Hz : Z.land (h * 256) l = 0).
  { replace l with (Z.land 255 l) at 1.
    2:{ rewrite Z.land_comm. change 255 with (Z.ones 8).
        rewrite Z.land_ones by lia. apply Z.mod_small. exact Hl. }
    rewrite Z.land_assoc. change 255 with (Z.ones 8).
    rewrite (Z.land_ones (h * 256)) by lia. change (2 ^ 8) with 256.
    rewrite Z.mod_mul by lia. reflexivity. }
  rewrite <- Z.lxor_lor by exact Hz.
  symmetry. apply Z.add_nocarry_lxor. exact Hz.
Qed.

(** X8.  The port encoding of the manager and the port decoding of the
    destination recovery are inverse to each other: [binaryPort] gives two
    bytes, the high one first, and reading them back as a big-endian
    16-bit number gives the port again, for every port as [NewManager]
    stores it (the given integer as a [uint16]). *)
Theorem binaryPort_round_trip (p : Z) :
  exists hi lo,
    binaryPort (uint16 p) = [hi; lo] /\
    0 <= hi < 256 /\ 0 <= lo < 256 /\
    proxy.BigEndian_Uint16 (hi, lo) = p mod 65536.
Proof.
  unfold binaryPort, uint16, byte_of.
  set (q := p mod 65536).
  assert (Hq : 0 <= q < 65536) by (apply Z.mod_pos_bound; lia).
  exists ((Z.shiftr q 8) mod 256), ((Z.land q 255) mod 256).
  split; [reflexivity|].
  assert (H1 : 0 <= Z.shiftr q 8 mod 256 < 256) by (apply Z.mod_pos_bound; lia).
  assert (H2 : 0 <= Z.land q 255 mod 256 < 256) by (apply Z.mod_pos_bound; lia).
  split; [exact H1|]. split; [exact H2|].
  unfold proxy.BigEndian_Uint16. simpl fst; simpl snd.
  rewrite lor_shiftl_8 by exact H2.
  rewrite Z.shiftr_div_pow2 by lia. change (2 ^ 8) with 256.
  change 255 with (Z.ones 8). rewrite Z.land_ones by lia.
  change (2 ^ 8) with 256.
  rewrite Z.mod_mod by lia.
  rewrite (Z.mod_small (q / 256)).
  2:{ split; [apply Z.div_pos; lia | apply Z.div_lt_upper_bound; lia]. }
  pose proof (Z.div_mod q 256). lia.
Qed.

(** X9.  The encoding of a user id loses nothing: [binaryUint32] gives
    four bytes, and two user ids in the range of [uint32] with the same
    bytes are equal, so the comparison of the rule singles out one user
    id. *)
Theorem binaryUint32_faithful (a b : Z) :
  0 <= a < 4294967296 -> 0 <= b < 4294967296 ->
  List.length (binaryUint32 a) = 4%nat /\
  Forall (fun x => 0 <= x < 256) (binaryUint32 a) /\
  (binaryUint32 a = binaryUint32 b <-> a = b).
Proof.
  intros Ha Hb. split; [reflexivity|]. split.
  - unfold binaryUint32, byte_of.
    repeat constructor; apply Z.mod_pos_bound; lia.
  - split; [now apply binaryUint32_inj | now intros ->].
Qed.

Lemma binaryUint32_faithful_witness :
  0 <= 1000 < 4294967296 /\ 0 <= 0 < 4294967296 /\
  List.length (binaryUint32 1000) = 4%nat /\
  Forall (fun x => 0 <= x < 256) (binaryUint32 1000) /\
  (binaryUint32 1000 = binaryUint32 0 <-> 1000 = 0).
Proof.
  split; [lia|]. split; [lia|].
  exact (binaryUint32_faithful 1000 0 ltac:(lia) ltac:(lia)).
Defined.

(** X11.  [Setup] commits all or nothing: when it returns an error the
    kernel has received no batch from it, and when it succeeds the kernel
    has received exactly one. *)
Theorem Setup_all_or_nothing (env : Env) (m m' : Manager) (k k' : Kernel)
        (r : option string) :
  Setup env m k = (r, m', k') ->
  match r with
  | Some _ => batches k' = batches k
  | None => exists batch, batches k' = batches k ++ [batch]
  end.
Proof.
  unfold Setup.
  destruct (nftables_New env) as [e|].
  { intros H. injection H as <- _ <-. reflexivity. }
  destruct (cleanupExisting_queue env (set_conn m) (fresh_conn k))
    as (stale & _ & ->).
  destruct (setupPolicyRouting env _) as [[e|] k1] eqn:Hp;
    apply setupPolicyRouting_queue in Hp; simpl in Hp; destruct Hp as [Hq Hb].
  { intros H. injection H as <- _ <-. exact Hb. }
  rewrite Setup_loop_queue. simpl. unfold Flush.
  destruct (Flush_err env) as [e|]; intros H; injection H as <- _ <-.
  - unfold cleanupPolicyRouting.
    destruct (netlink_LinkByName_lo env); simpl; exact Hb.
  - simpl. rewrite Hb. eauto.
Qed.

Lemma Setup_all_or_nothing_witness :
  exists m' k',
    Setup env_setuid (NewManager env_setuid 12345 DefaultPorts) kernel0
      = (None, m', k')
    /\ exists batch, batches k' = batches kernel0 ++ [batch].
Proof.
  eexists. eexists. split; [reflexivity|].
  exact (Setup_all_or_nothing env_setuid
           (NewManager env_setuid 12345 DefaultPorts) _ kernel0 _ None eq_refl).
Defined.

(** X12.  The routing calls of a [Setup] that fails.  When the batch is
    refused, [Setup] has added the routing rule and a route through the
    gateway 127.0.0.1, and then calls [RuleDel] with the same routing rule
    and [RouteDel] with a route of the same table and link that is not
    the route it added: it has no gateway, host scope and the type
    [RTN_LOCAL].  When the loopback interface is not found after the
    routing rule was added, [Setup] returns the error and makes no
    further routing call: nothing removes the routing rule. *)
Theorem Setup_failure_routing_calls (env : Env) (m : Manager) (k : Kernel) :
  nftables_New env = None ->
  netlink_RuleAdd env = None ->
  (forall lo e,
      netlink_LinkByName_lo env = Ok lo -> netlink_RouteAdd env = None ->
      Flush_err env = Some e ->
      fst (fst (Setup env m k)) =
        Some ("failed to apply nftables rules: " ++ e)%string /\
      exists added removed,
        rtcalls (snd (Setup env m k)) =
          rtcalls k ++
          [RuleAdd policyRule; RouteAdd added;
           RuleDel policyRule; RouteDel removed] /\
        added = {| LinkIndex := lo; Gw := Some (net.IPv4 127 0 0 1);
                   RtTable := routingTable; ScopeHost := false;
                   TypeLocal := false |} /\
        removed = {| LinkIndex := lo; Gw := None; RtTable := routingTable;
                     ScopeHost := true; TypeLocal := true |} /\
        removed <> added)
  /\ (forall e,
         netlink_LinkByName_lo env = Err e ->
         fst (fst (Setup env m k)) =
           Some ("failed to setup policy routing: " ++
                 "failed to get loopback interface: " ++ e)%string /\
         rtcalls (snd (Setup env m k)) = rtcalls k ++ [RuleAdd policyRule]).
Proof.
  intros Hn Hr. split.
  - intros lo e Hl Ha Hf. unfold Setup. rewrite Hn.
    destruct (cleanupExisting_queue env (set_conn m) (fresh_conn k))
      as (stale & _ & ->).
    unfold setupPolicyRouting. rewrite Hr, Hl, Ha.
    rewrite Setup_loop_queue. unfold Flush. rewrite Hf. simpl.
    unfold cleanupPolicyRouting. rewrite Hl. simpl.
    split; [reflexivity|].
    eexists. eexists. split; [rewrite <- !app_assoc; reflexivity|].
    split; [reflexivity|]. split; [reflexivity|]. discriminate.
  - intros e Hl. unfold Setup. rewrite Hn.
    destruct (cleanupExisting_queue env (set_conn m) (fresh_conn k))
      as (stale & _ & ->).
    unfold setupPolicyRouting. rewrite Hr, Hl. simpl.
    split; reflexivity.
Qed.

(** X13.  [Cleanup] on a manager that has not run [Setup] (as the
    [-cleanup] mode of the program uses it) tolerates state that is not
    there: whenever the connection opens and the batch is accepted it
    succeeds, whether or not the table, the routing rule or the loopback
    interface exist and whether or not the tables can be listed.  The one
    batch it sends deletes at most one table, named [transparent_proxy]
    and of the IPv4 family, and its first routing call removes the
    routing rule. *)
Theorem Cleanup_tolerant (env : Env) (m : Manager) (k : Kernel) :
  conn m = false ->
  nftables_New env = None ->
  Flush_err env = None ->
  exists stale more,
    Cleanup env m k =
      (None, set_conn m,
       {| queue := []; batches := batches k ++ [stale];
          rtcalls := rtcalls k ++ RuleDel policyRule :: more |}) /\
    (stale = [] \/
     exists t, stale = [MsgDelTable t] /\ TName t = tableName /\
               TFamily t = TableFamilyIPv4) /\
    (more = [] \/ exists r, more = [RouteDel r]).
Proof.
  intros Hc Hn Hf. unfold Cleanup. rewrite Hc, Hn.
  destruct (cleanupExisting_queue env (set_conn m) (fresh_conn k))
    as (stale & Hs & ->).
  unfold cleanupPolicyRouting, Flush. rewrite Hf.
  destruct (netlink_LinkByName_lo env) as [lo|e]; simpl.
  - exists stale,
      [RouteDel {| LinkIndex := lo; Gw := None; RtTable := routingTable;
                   ScopeHost := true; TypeLocal := true |}].
    split; [rewrite <- app_assoc; reflexivity|]. split; [exact Hs|].
    right. eauto.
  - exists stale, []. split; [reflexivity|]. split; [exact Hs|]. now left.
Qed.

(** X14.  The two preflight probes make the same calls and succeed on the
    same kernels: [CheckRoot] returns no error exactly when
    [CheckAvailable] returns none, which is when the connection opens and
    the tables can be listed.  They differ in the text of the error
    only. *)
Theorem CheckRoot_CheckAvailable (env : Env) :
  (CheckRoot env = None <-> CheckAvailable env = None) /\
  (CheckRoot env = None <->
   nftables_New env = None /\ exists tables, ListTables env = Ok tables).
Proof.
  unfold CheckRoot, CheckAvailable.
  destruct (nftables_New env) as [e|].
  - split; split; try discriminate. intros [H _]. discriminate.
  - destruct (ListTables env) as [ts|e].
    + split; split; auto. intros _. eauto.
    + split; split; try discriminate. intros [_ [ts H]]. discriminate.
Qed.

Lemma Setup_failure_routing_calls_witness :
  nftables_New env_flush_fails = None /\
  netlink_RuleAdd env_flush_fails = None /\
  fst (fst (Setup env_flush_fails
              (NewManager env_flush_fails 12345 DefaultPorts) kernel0)) =
    Some "failed to apply nftables rules: operation not supported"%string /\
  (exists added removed,
      rtcalls (snd (Setup env_flush_fails
                      (NewManager env_flush_fails 12345 DefaultPorts)
                      kernel0)) =
        [] ++
        [RuleAdd policyRule; RouteAdd added;
         RuleDel policyRule; RouteDel removed] /\
      added = {| LinkIndex := 1; Gw := Some (net.IPv4 127 0 0 1);
                 RtTable := routingTable; ScopeHost := false;
                 TypeLocal := false |} /\
      removed = {| LinkIndex := 1; Gw := None; RtTable := routingTable;
                   ScopeHost := true; TypeLocal := true |} /\
      removed <> added) /\
  fst (fst (Setup env_no_loopback
              (NewManager env_no_loopback 12345 DefaultPorts) kernel0)) =
    Some ("failed to setup policy routing: " ++
          "failed to get loopback interface: " ++ "Link not found")%string /\
  rtcalls (snd (Setup env_no_loopback
                  (NewManager env_no_loopback 12345 DefaultPorts) kernel0)) =
    [] ++ [RuleAdd policyRule].
Proof.
  split; [reflexivity|]. split; [reflexivity|].
  destruct (proj1 (Setup_failure_routing_calls env_flush_fails
                     (NewManager env_flush_fails 12345 DefaultPorts) kernel0
                     eq_refl eq_refl)
              1 "operation not supported"%string eq_refl eq_refl eq_refl)
    as [H1 H2].
  destruct (proj2 (Setup_failure_routing_calls env_no_loopback
                     (NewManager env_no_loopback 12345 DefaultPorts) kernel0
                     eq_refl eq_refl)
              "Link not found"%string eq_refl)
    as [H3 H4].
  split; [exact H1|]. split; [exact H2|]. split; [exact H3 | exact H4].
Defined.

Lemma Cleanup_tolerant_witness :
  conn (NewManager env_no_loopback 0 []) = false /\
  nftables_New env_no_loopback = None /\
  Flush_err env_no_loopback = None /\
  exists stale more,
    Cleanup env_no_loopback (NewManager env_no_loopback 0 []) kernel0 =
      (None, set_conn (NewManager env_no_loopback 0 []),
       {| queue := []; batches := batches kernel0 ++ [stale];
          rtcalls := rtcalls kernel0 ++ RuleDel policyRule :: more |}) /\
    (stale = [] \/
     exists t, stale = [MsgDelTable t] /\ TName t = tableName /\
               TFamily t = TableFamilyIPv4) /\
    (more = [] \/ exists r, more = [RouteDel r]).
Proof.
  split; [reflexivity|]. split; [reflexivity|]. split; [reflexivity|].
  exact (Cleanup_tolerant env_no_loopback (NewManager env_no_loopback 0 [])
           kernel0 eq_refl eq_refl eq_refl).
Defined.

End ManagerMore.

(* ================================================================== *)
(** * Further properties of the connector and the handler              *)
(* ================================================================== *)

Section ProxyMore.

Import proxy.
Local Open Scope string_scope.

Lemma connectHTTP_outcomes (env : Env) (u : Upstream) (targetAddr : string) :
  match net_Dial env (proxyAddr u "8080") with
  | Err e =>
      connectHTTP env u targetAddr =
        (Err ("failed to connect to HTTP proxy: " ++ e),
         [EvDial (proxyAddr u "8080")])
  | Ok _ =>
      (exists c,
          connectHTTP env u targetAddr =
            (Ok c, [EvDial (proxyAddr u "8080");
                    EvWriteRequest (connectRequest u targetAddr)]))
      \/ (exists e,
             connectHTTP env u targetAddr =
               (Err e, [EvDial (proxyAddr u "8080");
                        EvWriteRequest (connectRequest u targetAddr);
                        EvCloseServer]))
  end.
Proof.
  unfold connectHTTP.
  destruct (net_Dial env (proxyAddr u "8080")) as [conn|e]; [|reflexivity].
  destruct (req_Write env (connectRequest u targetAddr)) as [e|]; [eauto|].
  destruct (http.ReadResponse (headers_ok env) (bufio.NewReader conn))
    as [[resp|e] br]; [|eauto].
  destruct (negb (Z.eqb (http.StatusCode resp) http.StatusOK)); eauto.
Qed.

(** X15.  [connectHTTP] never leaves a failed connection open: when the
    upstream cannot be dialled there is nothing to close; once it is
    dialled, the call either returns the tunnel, with the connection open,
    or closes the connection as its last action and returns an error. *)
Theorem connectHTTP_closes_on_error (env : Env) (u : Upstream)
        (targetAddr : string) :
  match net_Dial env (proxyAddr u "8080") with
  | Err e =>
      connectHTTP env u targetAddr =
        (Err ("failed to connect to HTTP proxy: " ++ e),
         [EvDial (proxyAddr u "8080")])
  | Ok _ =>
      (exists c,
          connectHTTP env u targetAddr =
            (Ok c, [EvDial (proxyAddr u "8080");
                    EvWriteRequest (connectRequest u targetAddr)]))
      \/ (exists e,
             connectHTTP env u targetAddr =
               (Err e, [EvDial (proxyAddr u "8080");
                        EvWriteRequest (connectRequest u targetAddr);
                        EvCloseServer]))
  end.
Proof. exact (connectHTTP_outcomes env u targetAddr). Qed.

Lemma connectHTTP_not_final (env : Env) (u : Upstream) (targetAddr : string) :
  forallb (fun e => negb (is_final e)) (snd (connectHTTP env u targetAddr))
    = true.
Proof.
  pose proof (connectHTTP_outcomes env u targetAddr) as H.
  destruct (net_Dial env (proxyAddr u "8080")).
  - destruct H as [[c ->]|[e ->]]; reflexivity.
  - rewrite H. reflexivity.
Qed.

Lemma Connect_not_final (env : Env) (u : Upstream) (targetAddr : string) :
  forallb (fun e => negb (is_final e)) (snd (Connect env u targetAddr)) = true.
Proof.
  unfold Connect.
  destruct (String.eqb (Scheme (url u)) "http").
  - pose proof (connectHTTP_not_final env u targetAddr) as H.
    destruct (connectHTTP env u targetAddr) as [[c|e] evs]; exact H.
  - destruct (String.eqb (Scheme (url u)) "socks5"); [|reflexivity].
    unfold connectSOCKS5.
    destruct (SOCKS5_new env _ _); [reflexivity|].
    destruct (SOCKS5_Dial env _ _ _); reflexivity.
Qed.

Lemma DirectConnect_not_final (env : Env) (targetAddr : string) :
  forallb (fun e => negb (is_final e)) (snd (DirectConnect env targetAddr))
    = true.
Proof.
  unfold DirectConnect. destruct (net_Dial env targetAddr); reflexivity.
Qed.

Lemma getOriginalDst_not_final (env : Env) :
  forallb (fun e => negb (is_final e)) (snd (getOriginalDst env)) = true.
Proof.
  pose proof (getOriginalDst_cases env) as H.
  destruct (clientConn_File env) as [fd|e].
  - destruct (fst (getOriginalDstIPv4 env fd)) as [a4|e4].
    + rewrite H. reflexivity.
    + destruct (fst (getOriginalDstIPv6 env fd)) as [a6|e6].
      * destruct H as [_ ->]. reflexivity.
      * destruct H as (_ & _ & ->). reflexivity.
  - rewrite H. reflexivity.
Qed.

(** The shape of every run of the handler: calls that recover, resolve,
    match and connect, and then one of three endings. *)
Lemma handleConnection_shape (env : Env) (tp : TransparentProxy) :
  exists pre tail,
    handleConnection env tp = (pre ++ tail)%list /\
    forallb (fun e => negb (is_final e)) pre = true /\
    (tail = [EvCloseClient] \/ tail = [EvPanic; EvCloseClient] \/
     tail = [EvRelay; EvCloseServer; EvCloseClient]).
Proof.
  unfold handleConnection.
  pose proof (getOriginalDst_not_final env) as Hr.
  destruct (getOriginalDst env) as [[origDst|e] ev]; simpl in Hr.
  2:{ exists ev, [EvCloseClient]. auto. }
  destruct (LookupAddr env (IP_String env (IP origDst))) as [names lerr].
  set (dom := lookup_domain names lerr).
  set (res := rules.Match (matcher tp) dom (Some (IP origDst))).
  set (ev2 := (ev ++ [EvLookupAddr (IP_String env (IP origDst));
                      EvMatch dom (IP origDst)])%list).
  assert (H2 : forallb (fun e => negb (is_final e)) ev2 = true).
  { unfold ev2. rewrite forallb_app, Hr. reflexivity. }
  destruct (String.eqb (rules.MPolicy res) config.PolicyReject).
  { exists ev2, [EvCloseClient]. auto. }
  assert (Hgen : forall (sc : option NetConn) (er : option string)
                        (evc : list Event),
             forallb (fun e => negb (is_final e)) evc = true ->
             exists pre tail,
               match er, sc with
               | Some _, _ => (ev2 ++ evc ++ [EvCloseClient])%list
               | None, None => (ev2 ++ evc ++ [EvPanic; EvCloseClient])%list
               | None, Some _ =>
                   (ev2 ++ evc ++ [EvRelay; EvCloseServer; EvCloseClient])%list
               end = (pre ++ tail)%list /\
               forallb (fun e => negb (is_final e)) pre = true /\
               (tail = [EvCloseClient] \/ tail = [EvPanic; EvCloseClient] \/
                tail = [EvRelay; EvCloseServer; EvCloseClient])).
  { intros sc er evc Hc. exists (ev2 ++ evc)%list.
    assert (Hp : forallb (fun e => negb (is_final e)) (ev2 ++ evc) = true)
      by (rewrite forallb_app, H2, Hc; reflexivity).
    destruct er; [|destruct sc]; eexists; rewrite app_assoc; eauto. }
  destruct (String.eqb (rules.MPolicy res) config.PolicyDirect).
  { pose proof (DirectConnect_not_final env (TCPAddr_String env origDst)) as Hd.
    destruct (DirectConnect env (TCPAddr_String env origDst)) as [[c|e] evc];
      [exact (Hgen (Some c) None evc Hd) | exact (Hgen None (Some e) evc Hd)]. }
  destruct (String.eqb (rules.MPolicy res) config.PolicyProxy).
  { destruct (upstream tp) as [u|].
    - pose proof (Connect_not_final env u (TCPAddr_String env origDst)) as Hd.
      destruct (Connect env u (TCPAddr_String env origDst)) as [[c|e] evc];
        [exact (Hgen (Some c) None evc Hd) | exact (Hgen None (Some e) evc Hd)].
    - pose proof (DirectConnect_not_final env (TCPAddr_String env origDst)) as Hd.
      destruct (DirectConnect env (TCPAddr_String env origDst)) as [[c|e] evc];
        [exact (Hgen (Some c) None evc Hd) | exact (Hgen None (Some e) evc Hd)]. }
  exact (Hgen None lerr [] eq_refl).
Qed.

Lemma not_final_not_In (l : list Event) (e : Event) :
  forallb (fun e => negb (is_final e)) l = true -> is_final e = true ->
  ~ In e l.
Proof.
  intros H He Hin. rewrite forallb_forall in H. specialize (H e Hin).
  rewrite He in H. discriminate.
Qed.

(** X16.  Whatever happens, the handler closes the client's connection,
    once, and as its last action. *)
Theorem handleConnection_closes_client (env : Env) (tp : TransparentProxy) :
  exists pre,
    handleConnection env tp = (pre ++ [EvCloseClient])%list /\
    ~ In EvCloseClient pre.
Proof.
  destruct (handleConnection_shape env tp) as (pre & tail & -> & Hp & Ht).
  pose proof (not_final_not_In pre EvCloseClient Hp eq_refl) as Hn.
  destruct Ht as [->|[->| ->]].
  - exists pre. auto.
  - exists (pre ++ [EvPanic])%list. rewrite <- app_assoc. split; [reflexivity|].
    intros H. apply in_app_or in H. destruct H as [H|[H|[]]];
      [contradiction | discriminate].
  - exists (pre ++ [EvRelay; EvCloseServer])%list. rewrite <- app_assoc.
    split; [reflexivity|].
    intros H. apply in_app_or in H. destruct H as [H|[H|[H|[]]]];
      [contradiction | discriminate | discriminate].
Qed.

(** X17.  The handler relays at most once, and a relay is followed by the
    close of the server's connection and then of the client's: a
    connection that was obtained and relayed is never left open. *)
Theorem handleConnection_relay_then_close (env : Env) (tp : TransparentProxy) :
  In EvRelay (handleConnection env tp) ->
  exists pre,
    handleConnection env tp =
      (pre ++ [EvRelay; EvCloseServer; EvCloseClient])%list /\
    ~ In EvRelay pre.
Proof.
  destruct (handleConnection_shape env tp) as (pre & tail & -> & Hp & Ht).
  pose proof (not_final_not_In pre EvRelay Hp eq_refl) as Hn.
  intros Hin. apply in_app_or in Hin.
  destruct Ht as [->|[->| ->]].
  - destruct Hin as [H|[H|[]]]; [contradiction | discriminate].
  - destruct Hin as [H|[H|[H|[]]]]; [contradiction | discriminate | discriminate].
  - exists pre. auto.
Qed.

Lemma handleConnection_relay_then_close_witness :
  In EvRelay (handleConnection (example_env answer_200)
                               (example_proxy config.PolicyProxy))
  /\ exists pre,
      handleConnection (example_env answer_200)
                       (example_proxy config.PolicyProxy) =
        (pre ++ [EvRelay; EvCloseServer; EvCloseClient])%list /\
      ~ In EvRelay pre.
Proof.
  assert (H : In EvRelay (handleConnection (example_env answer_200)
                                           (example_proxy config.PolicyProxy))).
  { vm_compute. do 7 right. left. reflexivity. }
  split; [exact H|].
  exact (handleConnection_relay_then_close _ _ H).
Defined.

End ProxyMore.

Section HandlerMore.

Import proxy.
Local Open Scope string_scope.

(** X18.  A connection whose policy is [DIRECT], or [PROXY] while no
    upstream is configured, is dialled at its original destination and
    nowhere else: after the recovery, the lookup and the match the handler
    makes one dial, of the recovered address, then relays and closes both
    connections, or, when the dial fails, closes the client's. *)
Theorem handleConnection_direct (env : Env) (tp : TransparentProxy)
        (origDst : TCPAddr) (ev : list Event) :
  getOriginalDst env = (Ok origDst, ev) ->
  let policy :=
    rules.MPolicy
      (rules.Match (matcher tp)
         (lookup_domain (fst (LookupAddr env (IP_String env (IP origDst))))
                        (snd (LookupAddr env (IP_String env (IP origDst)))))
         (Some (IP origDst))) in
  policy = config.PolicyDirect \/
  (policy = config.PolicyProxy /\ upstream tp = None) ->
  handleConnection env tp =
    (ev ++
     [EvLookupAddr (IP_String env (IP origDst));
      EvMatch (lookup_domain
                 (fst (LookupAddr env (IP_String env (IP origDst))))
                 (snd (LookupAddr env (IP_String env (IP origDst)))))
              (IP origDst);
      EvDial (TCPAddr_String env origDst)] ++
     (if is_ok (net_Dial env (TCPAddr_String env origDst))
      then [EvRelay; EvCloseServer; EvCloseClient]
      else [EvCloseClient]))%list.
Proof.
  intros H policy Hp. subst policy. unfold handleConnection. rewrite H.
  destruct (LookupAddr env (IP_String env (IP origDst))) as [names lerr].
  simpl fst in *; simpl snd in *.
  assert (Hd :
    match DirectConnect env (TCPAddr_String env origDst) with
    | (Ok c, evc) => (Some c, @None string, evc)
    | (Err e, evc) => (None, Some e, evc)
    end =
    match net_Dial env (TCPAddr_String env origDst) with
    | Ok c => (Some (Plain c), None, [EvDial (TCPAddr_String env origDst)])
    | Err e => (None, Some ("failed to connect directly: " ++ e),
                [EvDial (TCPAddr_String env origDst)])
    end).
  { unfold DirectConnect.
    destruct (net_Dial env (TCPAddr_String env origDst)); reflexivity. }
  destruct Hp as [Hp|[Hp Hu]]; rewrite Hp; simpl.
  - rewrite Hd. destruct (net_Dial env (TCPAddr_String env origDst)); simpl;
      rewrite <- app_assoc; reflexivity.
  - rewrite Hu, Hd.
    destruct (net_Dial env (TCPAddr_String env origDst)); simpl;
      rewrite <- app_assoc; reflexivity.
Qed.

Lemma handleConnection_direct_witness :
  getOriginalDst (example_env []) =
    (Ok {| IP := net.IPv4 8 8 8 8; TPort := 443 |},
     [EvFile; attempt4 7 0; EvFileClose])
  /\ handleConnection (example_env [])
                      (example_proxy_no_upstream config.PolicyProxy) =
       [EvFile; attempt4 7 0; EvFileClose; EvLookupAddr "8.8.8.8";
        EvMatch "dns.google" (net.IPv4 8 8 8 8); EvDial "8.8.8.8:443";
        EvRelay; EvCloseServer; EvCloseClient].
Proof.
  split; [reflexivity|].
  exact (handleConnection_direct (example_env [])
           (example_proxy_no_upstream config.PolicyProxy) _ _ eq_refl
           (or_intror (conj eq_refl eq_refl))).
Defined.

Lemma valid_policy_cases (p : config.Policy) :
  valid_policy p ->
  String.eqb p config.PolicyReject = true \/
  String.eqb p config.PolicyDirect = true \/
  String.eqb p config.PolicyProxy = true.
Proof. intros [->|[->| ->]]; auto. Qed.

Lemma handleConnection_valid_no_panic (env : Env) (tp : TransparentProxy) :
  Forall (fun r => valid_policy (rules.Policy r)) (matcher tp) ->
  ~ In EvPanic (handleConnection env tp).
Proof.
  intros Hv. unfold handleConnection.
  pose proof (getOriginalDst_not_final env) as Hr.
  destruct (getOriginalDst env) as [[origDst|e] ev]; simpl in Hr.
  2:{ intros H. apply in_app_or in H. destruct H as [H|[H|[]]];
        [|discriminate].
      exact (not_final_not_In ev EvPanic Hr eq_refl H). }
  destruct (LookupAddr env (IP_String env (IP origDst))) as [names lerr].
  set (dom := lookup_domain names lerr).
  assert (Hpol : valid_policy
                   (rules.MPolicy
                      (rules.Match (matcher tp) dom (Some (IP origDst)))))
    by (unfold rules.Match; apply Match_loop_policy; exact Hv).
  set (res := rules.Match (matcher tp) dom (Some (IP origDst))) in *.
  set (ev2 := (ev ++ [EvLookupAddr (IP_String env (IP origDst));
                      EvMatch dom (IP origDst)])%list).
  assert (H2 : forallb (fun e => negb (is_final e)) ev2 = true).
  { unfold ev2. rewrite forallb_app, Hr. reflexivity. }
  assert (Hgen : forall (evc tail : list Event),
             forallb (fun e => negb (is_final e)) evc = true ->
             ~ In EvPanic tail ->
             ~ In EvPanic (ev2 ++ evc ++ tail)%list).
  { intros evc tail Hc Ht H. apply in_app_or in H. destruct H as [H|H].
    - exact (not_final_not_In ev2 EvPanic H2 eq_refl H).
    - apply in_app_or in H. destruct H as [H|H]; [|contradiction].
      exact (not_final_not_In evc EvPanic Hc eq_refl H). }
  assert (T1 : ~ In EvPanic [EvCloseClient])
    by (intros [H|[]]; discriminate).
  assert (T2 : ~ In EvPanic [EvRelay; EvCloseServer; EvCloseClient])
    by (intros [H|[H|[H|[]]]]; discriminate).
  destruct (String.eqb (rules.MPolicy res) config.PolicyReject) eqn:E1.
  { exact (Hgen [] _ eq_refl T1). }
  destruct (String.eqb (rules.MPolicy res) config.PolicyDirect) eqn:E2.
  { pose proof (DirectConnect_not_final env (TCPAddr_String env origDst)) as Hd.
    destruct (DirectConnect env (TCPAddr_String env origDst)) as [[c|e] evc];
      [exact (Hgen evc _ Hd T2) | exact (Hgen evc _ Hd T1)]. }
  destruct (String.eqb (rules.MPolicy res) config.PolicyProxy) eqn:E3.
  { destruct (upstream tp) as [u|].
    - pose proof (Connect_not_final env u (TCPAddr_String env origDst)) as Hd.
      destruct (Connect env u (TCPAddr_String env origDst)) as [[c|e] evc];
        [exact (Hgen evc _ Hd T2) | exact (Hgen evc _ Hd T1)].
    - pose proof (DirectConnect_not_final env (TCPAddr_String env origDst)) as Hd.
      destruct (DirectConnect env (TCPAddr_String env origDst)) as [[c|e] evc];
        [exact (Hgen evc _ Hd T2) | exact (Hgen evc _ Hd T1)]. }
  exfalso. apply valid_policy_cases in Hpol.
  destruct Hpol as [H|[H|H]]; congruence.
Qed.

(** X19.  With the rules of [ParseRules] the handler never reaches the
    call on a [nil] connection: every policy they carry is one of the
    three that the handler's [switch] knows. *)
Theorem parsed_rules_no_panic (cidr : string -> option net.IPNet)
        (lines : list string) (env : Env) (tp : TransparentProxy) :
  rules.ParseRules cidr lines = Ok (matcher tp) ->
  ~ In EvPanic (handleConnection env tp).
Proof.
  intros H. apply handleConnection_valid_no_panic.
  unfold rules.ParseRules in H. apply ParseRules_loop_ok in H.
  destruct H as (rs' & E & H). simpl in E. rewrite E. clear E.
  induction H as [|l r ls rs Hl Hrest IH]; constructor; auto.
  apply ParseRule_accepts in Hl.
  destruct Hl as [(_ & _ & Hp & ->)|[(_ & _ & Hp & ->)|(_ & _ & Hp & n & _ & ->)]];
    exact Hp.
Qed.

Lemma parsed_rules_no_panic_witness :
  rules.ParseRules example_cidr ["DOMAIN-KEYWORD,google,PROXY"] =
    Ok (matcher (example_proxy config.PolicyProxy))
  /\ ~ In EvPanic (handleConnection (example_env answer_200)
                                    (example_proxy config.PolicyProxy)).
Proof.
  split; [reflexivity|].
  exact (parsed_rules_no_panic example_cidr ["DOMAIN-KEYWORD,google,PROXY"]
           (example_env answer_200) (example_proxy config.PolicyProxy)
           eq_refl).
Defined.

(** X20.  The matcher takes any rules, and a rule whose policy is none of
    the three tokens is not caught by the handler: when it matches and the
    name lookup returned no error, no connection is made and the handler
    goes on to use a [nil] connection, which panics. *)
Theorem handleConnection_unknown_policy (env : Env) (tp : TransparentProxy)
        (origDst : TCPAddr) (ev : list Event) :
  getOriginalDst env = (Ok origDst, ev) ->
  snd (LookupAddr env (IP_String env (IP origDst))) = None ->
  ~ valid_policy
      (rules.MPolicy
         (rules.Match (matcher tp)
            (lookup_domain (fst (LookupAddr env (IP_String env (IP origDst))))
                           None)
            (Some (IP origDst)))) ->
  handleConnection env tp =
    (ev ++
     [EvLookupAddr (IP_String env (IP origDst));
      EvMatch (lookup_domain
                 (fst (LookupAddr env (IP_String env (IP origDst)))) None)
              (IP origDst);
      EvPanic; EvCloseClient])%list.
Proof.
  intros H Hl Hp. unfold handleConnection. rewrite H.
  destruct (LookupAddr env (IP_String env (IP origDst))) as [names lerr].
  simpl in Hl, Hp. subst lerr.
  set (res := rules.Match (matcher tp) (lookup_domain names None)
                          (Some (IP origDst))) in *.
  destruct (String.eqb_spec (rules.MPolicy res) config.PolicyReject) as [E|_].
  { exfalso. apply Hp. right; right; exact E. }
  destruct (String.eqb_spec (rules.MPolicy res) config.PolicyDirect) as [E|_].
  { exfalso. apply Hp. right; left; exact E. }
  destruct (String.eqb_spec (rules.MPolicy res) config.PolicyProxy) as [E|_].
  { exfalso. apply Hp. left; exact E. }
  simpl. rewrite <- app_assoc. reflexivity.
Qed.

Lemma handleConnection_unknown_policy_witness :
  getOriginalDst (example_env []) =
    (Ok {| IP := net.IPv4 8 8 8 8; TPort := 443 |},
     [EvFile; attempt4 7 0; EvFileClose])
  /\ handleConnection (example_env []) (example_proxy "BLOCK") =
       [EvFile; attempt4 7 0; EvFileClose; EvLookupAddr "8.8.8.8";
        EvMatch "dns.google" (net.IPv4 8 8 8 8); EvPanic; EvCloseClient].
Proof.
  split; [reflexivity|].
  refine (handleConnection_unknown_policy (example_env [])
            (example_proxy "BLOCK") _ _ eq_refl eq_refl _).
  intros [H|[H|H]]; discriminate.
Defined.

(** X21.  The name lookup is best effort: with rules of valid policies, a
    lookup that fails is handled exactly as a lookup that returns no name,
    whatever names came with the error. *)
Theorem lookup_failure_is_no_name (env : Env) (tp : TransparentProxy)
        (names : list string) (e : string) :
  Forall (fun r => valid_policy (rules.Policy r)) (matcher tp) ->
  handleConnection (with_LookupAddr env (fun _ => (names, Some e))) tp =
  handleConnection (with_LookupAddr env (fun _ => ([], None))) tp.
Proof.
  intros Hv. unfold handleConnection.
  change (getOriginalDst (with_LookupAddr env (fun _ => (names, Some e))))
    with (getOriginalDst env).
  change (getOriginalDst (with_LookupAddr env (fun _ => ([], None))))
    with (getOriginalDst env).
  destruct (getOriginalDst env) as [[origDst|e0] ev]; [|reflexivity].
  cbn [with_LookupAddr LookupAddr IP_String TCPAddr_String].
  change (lookup_domain names (Some e)) with EmptyString.
  change (lookup_domain [] None) with EmptyString.
  assert (Hpol : valid_policy
                   (rules.MPolicy
                      (rules.Match (matcher tp) "" (Some (IP origDst)))))
    by (unfold rules.Match; apply Match_loop_policy; exact Hv).
  set (res := rules.Match (matcher tp) "" (Some (IP origDst))) in *.
  apply valid_policy_cases in Hpol.
  destruct (String.eqb (rules.MPolicy res) config.PolicyReject) eqn:E1;
    [reflexivity|].
  destruct (String.eqb (rules.MPolicy res) config.PolicyDirect) eqn:E2;
    [reflexivity|].
  destruct (String.eqb (rules.MPolicy res) config.PolicyProxy) eqn:E3;
    [reflexivity|].
  destruct Hpol as [H|[H|H]]; congruence.
Qed.

Lemma lookup_failure_is_no_name_witness :
  Forall (fun r => valid_policy (rules.Policy r))
         (matcher (example_proxy config.PolicyDirect))
  /\ handleConnection
       (with_LookupAddr (example_env [])
                        (fun _ => (["dns.google."], Some "timeout")))
       (example_proxy config.PolicyDirect) =
     handleConnection
       (with_LookupAddr (example_env []) (fun _ => ([], None)))
       (example_proxy config.PolicyDirect).
Proof.
  assert (H : Forall (fun r => valid_policy (rules.Policy r))
                     (matcher (example_proxy config.PolicyDirect))).
  { constructor; [right; left; reflexivity | constructor]. }
  split; [exact H|].
  exact (lookup_failure_is_no_name (example_env [])
           (example_proxy config.PolicyDirect) ["dns.google."] "timeout" H).
Defined.

(** X22.  The address that [getOriginalDstIPv4] returns for the socket
    address the kernel has written: the IPv4 address in its 16-byte form,
    which [To4] gives back, and the port read from its two bytes, high
    byte first, a number below 65536. *)
Theorem getOriginalDstIPv4_address (env : Env) (fd : Z) (sa : sockaddrIn)
        (a b c d hi lo : Z) :
  getsockopt_SOL_IP env fd = (0%Z, sa) ->
  Addr sa = (a, b, c, d) -> SPort sa = (hi, lo) ->
  (0 <= hi < 256)%Z -> (0 <= lo < 256)%Z ->
  getOriginalDstIPv4 env fd =
    (inl {| IP := net.IPv4 a b c d; TPort := (hi * 256 + lo)%Z |},
     [attempt4 fd 0]) /\
  (0 <= hi * 256 + lo < 65536)%Z /\
  net.To4 (net.IPv4 a b c d) = Some [a; b; c; d].
Proof.
  intros Hg Ha Hp Hhi Hlo. unfold getOriginalDstIPv4.
  rewrite Hg, Ha, Hp. simpl negb. cbv iota.
  unfold BigEndian_Uint16. simpl fst; simpl snd.
  rewrite lor_shiftl_8 by exact Hlo.
  split; [reflexivity|]. split; [lia | reflexivity].
Qed.

Lemma getOriginalDstIPv4_address_witness :
  getOriginalDstIPv4 (example_env []) 7 =
    (inl {| IP := net.IPv4 8 8 8 8; TPort := (1 * 256 + 187)%Z |},
     [attempt4 7 0]) /\
  (0 <= 1 * 256 + 187 < 65536)%Z /\
  net.To4 (net.IPv4 8 8 8 8) = Some [8; 8; 8; 8]%Z.
Proof.
  exact (getOriginalDstIPv4_address (example_env []) 7 example_sockaddr
           8 8 8 8 1 187 eq_refl eq_refl eq_refl
           ltac:(lia) ltac:(lia)).
Defined.

End HandlerMore.

Section SetupMore.

Import proxy setup.
Local Open Scope string_scope.

Lemma Validate_cases (url_Parse : string -> result URL) (c : Config) :
  match Validate url_Parse c with
  | (Some _, c') => c' = c
  | (None, c') =>
      Listen c <> "" /\ Upstream c <> "" /\
      exists u,
        url_Parse (Upstream c) = Ok u /\
        (Scheme u = "http" \/ Scheme u = "socks5") /\
        c' = {| Listen := Listen c; Upstream := Upstream c;
                Rules := Rules c; LogLevel := LogLevel c;
                UpstreamURL := Some u |}
  end.
Proof.
  unfold Validate.
  destruct (String.eqb_spec (Listen c) "") as [El|Nl]; [reflexivity|].
  destruct (String.eqb_spec (Upstream c) "") as [Eu|Nu]; [reflexivity|].
  destruct (url_Parse (Upstream c)) as [u|e]; [|reflexivity].
  destruct (String.eqb_spec (Scheme u) "http") as [Eh|Nh]; simpl.
  - repeat split; auto. exists u. auto.
  - destruct (String.eqb_spec (Scheme u) "socks5") as [Es|Ns]; simpl.
    + repeat split; auto. exists u. auto.
    + reflexivity.
Qed.

(** X23.  [Validate] changes the configuration only when it succeeds, and
    then only by storing the parsed upstream URL.  It succeeds exactly
    for a non-empty listen address and a non-empty upstream that parses
    as a URL of scheme [http] or [socks5]. *)
Theorem Validate_result (url_Parse : string -> result URL) (c : Config) :
  match Validate url_Parse c with
  | (Some _, c') => c' = c
  | (None, c') =>
      Listen c <> "" /\ Upstream c <> "" /\
      exists u,
        url_Parse (Upstream c) = Ok u /\
        (Scheme u = "http" \/ Scheme u = "socks5") /\
        c' = {| Listen := Listen c; Upstream := Upstream c;
                Rules := Rules c; LogLevel := LogLevel c;
                UpstreamURL := Some u |}
  end
  /\ (fst (Validate url_Parse c) = None <->
      Listen c <> "" /\ Upstream c <> "" /\
      exists u, url_Parse (Upstream c) = Ok u /\
                (Scheme u = "http" \/ Scheme u = "socks5")).
Proof.
  split; [apply Validate_cases|].
  pose proof (Validate_cases url_Parse c) as H. split.
  - destruct (Validate url_Parse c) as [[e|] c']; simpl; [discriminate|].
    intros _. destruct H as (Hl & Hu & u & Hp & Hs & _). eauto.
  - intros (Hl & Hu & u & Hp & Hs). unfold Validate.
    destruct (String.eqb_spec (Listen c) ""); [contradiction|].
    destruct (String.eqb_spec (Upstream c) ""); [contradiction|].
    rewrite Hp.
    destruct Hs as [Hs|Hs]; rewrite Hs; reflexivity.
Qed.

(** X24.  A validated configuration gives a proxy whose upstream
    [Connect] can serve: the proxy has an upstream, and every call of
    [Connect] on it is the HTTP connector or the SOCKS5 connector, never
    the refusal of an unsupported scheme. *)
Theorem validated_upstream_supported
        (url_Parse : string -> result URL) (c c' : Config)
        (m : list rules.Rule) :
  Validate url_Parse c = (None, c') ->
  exists u,
    upstream (NewTransparentProxy c' m) = Some u /\
    listenAddr (NewTransparentProxy c' m) = Listen c /\
    forall env targetAddr,
      Connect env u targetAddr =
        as_NetConn Buffered (connectHTTP env u targetAddr) \/
      Connect env u targetAddr =
        as_NetConn Plain (connectSOCKS5 env u targetAddr).
Proof.
  intros H. pose proof (Validate_cases url_Parse c) as V. rewrite H in V.
  destruct V as (_ & _ & u & _ & Hs & ->).
  exists (NewUpstream u). split; [reflexivity|]. split; [reflexivity|].
  intros env targetAddr. unfold Connect, NewUpstream; simpl.
  destruct Hs as [Hs|Hs]; rewrite Hs; simpl.
  - left. destruct (connectHTTP env {| url := u |} targetAddr) as [[x|e] evs];
      reflexivity.
  - right. destruct (connectSOCKS5 env {| url := u |} targetAddr) as [[x|e] evs];
      reflexivity.
Qed.

Lemma validated_upstream_supported_witness :
  Validate example_url_Parse example_config =
    (None,
     {| Listen := ":12345"; Upstream := "http://proxy:8080";
        Rules := ["MATCH,DIRECT"]; LogLevel := "info";
        UpstreamURL := Some (url example_upstream) |})
  /\ exists u,
      upstream (NewTransparentProxy
                  {| Listen := ":12345"; Upstream := "http://proxy:8080";
                     Rules := ["MATCH,DIRECT"]; LogLevel := "info";
                     UpstreamURL := Some (url example_upstream) |} []) = Some u /\
      listenAddr (NewTransparentProxy
                    {| Listen := ":12345"; Upstream := "http://proxy:8080";
                       Rules := ["MATCH,DIRECT"]; LogLevel := "info";
                       UpstreamURL := Some (url example_upstream) |} [])
        = Listen example_config /\
      forall env targetAddr,
        Connect env u targetAddr =
          as_NetConn Buffered (connectHTTP env u targetAddr) \/
        Connect env u targetAddr =
          as_NetConn Plain (connectSOCKS5 env u targetAddr).
Proof.
  split; [reflexivity|].
  exact (validated_upstream_supported example_url_Parse example_config _ []
           eq_refl).
Defined.

End SetupMore.
